(** * fileserver: a shallow embedding of [main.go] and its request handler

    The program is a one-file HTTP file server.  [resolvePath] turns the
    [-f] argument into the pair of globals [root] / [file]; [serve] answers
    one request against them; [listFiles] renders a directory page.

    The operating system and the Go standard library are not part of the
    repository.  The file system, the working directory and the few
    library tables the handler consults are gathered in a [World] record
    that every effectful definition reads; the lexical library functions
    the program calls ([strings.Trim], [filepath.Clean], [filepath.Join],
    [filepath.Dir], [filepath.Base], [fmt.Sprintf] with the [%s] verb) are
    written out as functions on strings, for the Unix build.  Of
    [net/http] the two responders the handler delegates to are modelled:
    [http.Error] and [http.ServeContent], the latter for requests whose
    only precondition is [If-Modified-Since].

    [main] is followed up to [http.ListenAndServe]; the closure it
    registers runs [serve] on a fresh [ResponseWriter] and then prints
    the access line, with the line as the format of [log].  [Sprintf]
    knows the verb [%s] and the escape [%%]; statements about the access
    line are made for lines with no other use of the percent sign. *)

From Stdlib Require Import String Ascii List ZArith Bool Lia.
From Stdlib Require Import DecimalString.
Import ListNotations.

Local Open Scope string_scope.
Local Open Scope Z_scope.

(* ===================================================================== *)
(** ** Strings *)
(* ===================================================================== *)

Module Strings.

(** The two characters that cannot be typed inside a literal without
    escaping. *)
Definition nl : string := String "010" EmptyString.
Definition dq : string := String "034" EmptyString.

Definition Separator : ascii := "/"%char.

(** [strings.Contains], for a one-character needle handed over as the
    character itself. *)
Fixpoint containsChar (c : ascii) (s : string) : bool :=
  match s with
  | EmptyString => false
  | String a s' => Ascii.eqb a c || containsChar c s'
  end.

Fixpoint TrimLeft (s cutset : string) : string :=
  match s with
  | EmptyString => EmptyString
  | String a s' => if containsChar a cutset then TrimLeft s' cutset else s
  end.

Fixpoint TrimRight (s cutset : string) : string :=
  match s with
  | EmptyString => EmptyString
  | String a s' =>
      match TrimRight s' cutset with
      | EmptyString =>
          if containsChar a cutset then EmptyString
          else String a EmptyString
      | t => String a t
      end
  end.

(** [strings.Trim(s, cutset)]: every leading and trailing character that
    occurs in [cutset] is removed. *)
Definition Trim (s cutset : string) : string :=
  TrimRight (TrimLeft s cutset) cutset.

Fixpoint HasPrefix (s prefix : string) {struct prefix} : bool :=
  match prefix with
  | EmptyString => true
  | String a prefix' =>
      match s with
      | EmptyString => false
      | String b s' => Ascii.eqb a b && HasPrefix s' prefix'
      end
  end.

Definition HasSuffix (s suffix : string) : bool :=
  let n := String.length s in
  let m := String.length suffix in
  (m <=? n)%nat && String.eqb (substring (n - m) m s) suffix.

(** [strings.Split(s, sep)] for a one-character separator. *)
Fixpoint Split (s : string) (sep : ascii) : list string :=
  match s with
  | EmptyString => [EmptyString]
  | String a s' =>
      if Ascii.eqb a sep then EmptyString :: Split s' sep
      else match Split s' sep with
           | h :: t => String a h :: t
           | [] => [String a EmptyString]
           end
  end.

(** [strings.Join(elems, sep)]. *)
Fixpoint Join (elems : list string) (sep : string) : string :=
  match elems with
  | [] => EmptyString
  | [e] => e
  | e :: rest => e ++ sep ++ Join rest sep
  end.

(** [strconv.Itoa] / [strconv.FormatInt(_, 10)]. *)
Definition Itoa (n : Z) : string := NilZero.string_of_int (Z.to_int n).

(** [fmt.Sprintf] on string arguments.  Every format of the program
    uses the verb [%s] only; [%%] is the escaped percent sign.  A verb
    without an argument prints Go's [%!s(MISSING)] marker, arguments
    left over print the [%!(EXTRA ...)] marker. *)
Definition extra (a : list string) : string :=
  match a with
  | [] => EmptyString
  | _ => "%!(EXTRA " ++ Join (map (fun x => "string=" ++ x) a) ", " ++ ")"
  end.

Fixpoint Sprintf (format : string) (a : list string) : string :=
  match format with
  | EmptyString => extra a
  | String "%" (String "s" rest) =>
      match a with
      | x :: a' => x ++ Sprintf rest a'
      | [] => "%!s(MISSING)" ++ Sprintf rest []
      end
  | String "%" (String "%" rest) => String "%" (Sprintf rest a)
  | String c rest => String c (Sprintf rest a)
  end.

End Strings.

(* ===================================================================== *)
(** ** path/filepath, Unix flavour *)
(* ===================================================================== *)

Module Filepath.
Import Strings.

Definition IsAbs (path : string) : bool := HasPrefix path "/".

(** One step of [Clean]'s scan, on a whole path element.  [out] is the
    list of elements written so far, last one first.  An empty element
    and [.] are skipped; [..] removes the last written element when
    there is one to go back over, is kept when the path is relative
    (a leading run of [..] elements), and is dropped at the root. *)
Definition cleanStep (rooted : bool) (out : list string) (elem : string)
  : list string :=
  if String.eqb elem EmptyString then out
  else if String.eqb elem "." then out
  else if String.eqb elem ".." then
    match out with
    | top :: below =>
        if String.eqb top ".." then
          if rooted then out else elem :: out
        else below
    | [] => if rooted then out else [elem]
    end
  else elem :: out.

(** [filepath.Clean]: the shortest path name equivalent to [path] by
    purely lexical processing. *)
Definition Clean (path : string) : string :=
  match path with
  | EmptyString => "."
  | String c _ =>
      let rooted := Ascii.eqb c Separator in
      let out := fold_left (cleanStep rooted) (Split path Separator) [] in
      let body := Strings.Join (rev out) "/" in
      if rooted then "/" ++ body
      else match body with
           | EmptyString => "."
           | _ => body
           end
  end.

(** [filepath.Join]: the elements from the first non-empty one on are
    joined with the separator and the result is cleaned; all elements
    empty gives the empty string. *)
Fixpoint Join (elem : list string) : string :=
  match elem with
  | [] => EmptyString
  | e :: rest =>
      match e with
      | EmptyString => Join rest
      | _ => Clean (Strings.Join elem "/")
      end
  end.

(** The part of [path] up to and including its last separator. *)
Fixpoint uptoLastSeparator (path : string) : string :=
  match path with
  | EmptyString => EmptyString
  | String a s' =>
      match uptoLastSeparator s' with
      | EmptyString =>
          if Ascii.eqb a Separator then String a EmptyString
          else EmptyString
      | t => String a t
      end
  end.

(** [filepath.Dir]: all but the last element of [path], cleaned. *)
Definition Dir (path : string) : string := Clean (uptoLastSeparator path).

(** [filepath.Base]: the last element of [path]; trailing separators are
    removed first. *)
Definition Base (path : string) : string :=
  match path with
  | EmptyString => "."
  | _ =>
      match last (Split (TrimRight path "/") Separator) EmptyString with
      | EmptyString => "/"
      | b => b
      end
  end.

(** The result of scanning a name from its right end for the extension
    dot: found, stopped at a separator, or still looking. *)
Inductive extScan : Type :=
| ExtFound (e : string)
| ExtStop
| ExtLooking.

Fixpoint scanExt (path : string) : extScan :=
  match path with
  | EmptyString => ExtLooking
  | String a s' =>
      match scanExt s' with
      | ExtFound e => ExtFound e
      | ExtStop => ExtStop
      | ExtLooking =>
          if Ascii.eqb a Separator then ExtStop
          else if Ascii.eqb a "." then ExtFound path
          else ExtLooking
      end
  end.

(** [filepath.Ext]: the suffix beginning at the final dot in the final
    element of [path]; empty if there is no dot. *)
Definition Ext (path : string) : string :=
  match scanExt path with
  | ExtFound e => e
  | _ => EmptyString
  end.

End Filepath.

(* ===================================================================== *)
(** ** The world outside the program *)
(* ===================================================================== *)

(** A Go [error] as far as the program looks at it: [os.IsNotExist] and
    the text of [err.Error()]. *)
Record Error : Type := mkError {
  IsNotExist : bool;
  ErrorText : string
}.

Inductive result (A : Type) : Type :=
| Ok (a : A)
| Err (e : Error).
Arguments Ok {A} a.
Arguments Err {A} e.

(** [os.FileInfo]: the three answers the program asks for.  [ModTime] is
    in nanoseconds since the Unix epoch. *)
Record FileInfo : Type := mkFileInfo {
  Name : string;
  IsDir : bool;
  ModTime : Z
}.

(** An opened [*os.File]: what reading it yields and what [Close] will
    answer. *)
Record File : Type := mkFile {
  Content : string;
  CloseErr : option Error
}.

Record IP : Type := mkIP {
  To4 : bool;          (* [v.IP.To4() != nil] *)
  IPString : string    (* [v.IP.String()] *)
}.

(** [net.Addr] values by dynamic type: [*net.IPNet] or anything else. *)
Inductive Addr : Type :=
| IPNet (ip : IP)
| OtherAddr.

Record Interface : Type := mkInterface {
  IfName : string;
  Addrs : result (list Addr)
}.

Record World : Type := mkWorld {
  Getwd : result string;
  Stat : string -> result FileInfo;
  ReadDir : string -> result (list FileInfo);
  Open : string -> result File;
  InterfaceByName : string -> result Interface;
  InterfaceByIndex : Z -> result Interface;
  ListenAndServe : string -> option Error;
  ConnWrite : option Error;     (* what the connection answers to a write *)
  Now : string;      (* [time.Now().Format("2006.01.02 15:04:05 ")] *)
  MimeTypes : string -> string; (* the [mime] table, keyed by the
                                   extension after its dot *)
  DetectContentType : string -> string;  (* [http.DetectContentType] *)
  TimeFormat : Z -> string      (* [t.UTC().Format(http.TimeFormat)],
                                   [t] in Unix seconds *)
}.

(** The package-level variables of [main.go]. *)
Record Globals : Type := mkGlobals {
  root : string;
  file : string;
  netIF : string;
  port : Z
}.

Definition setRoot (g : Globals) (r : string) : Globals :=
  mkGlobals r (file g) (netIF g) (port g).
Definition setFile (g : Globals) (f : string) : Globals :=
  mkGlobals (root g) f (netIF g) (port g).

(** [*http.Request], as far as [serve] and the content responder's
    modification-time check read it.  [IfModifiedSince] is the
    [If-Modified-Since] header when present and a well-formed HTTP date,
    in Unix seconds.  The other conditional headers and [Range] are not
    carried: the model speaks about requests without them. *)
Record Request : Type := mkRequest {
  Method : string;
  URLPath : string;
  IfModifiedSince : option Z;
  RemoteAddr : string
}.

(* ===================================================================== *)
(** ** Response writers *)
(* ===================================================================== *)

Module Http.
Import Strings.

Definition StatusOK : Z := 200.
Definition StatusNotModified : Z := 304.
Definition StatusNotFound : Z := 404.
Definition StatusInternalServerError : Z := 500.

Definition HeaderMap : Type := list (string * string).

Definition Del (h : HeaderMap) (k : string) : HeaderMap :=
  filter (fun kv => negb (String.eqb (fst kv) k)) h.

Definition Set_ (h : HeaderMap) (k v : string) : HeaderMap :=
  (k, v) :: Del h k.

Fixpoint Lookup (h : HeaderMap) (k : string) : option string :=
  match h with
  | [] => None
  | (k', v) :: h' => if String.eqb k' k then Some v else Lookup h' k
  end.

Definition Get (h : HeaderMap) (k : string) : string :=
  match Lookup h k with
  | Some v => v
  | None => EmptyString
  end.

(** The server's own [http.ResponseWriter]: the header map, the status
    line once it has been written, and the bytes handed to the
    connection. *)
Record Conn : Type := mkConn {
  header : HeaderMap;
  code : option Z;
  body : string
}.

Definition newConn : Conn := mkConn [] None EmptyString.

Definition connSetHeader (c : Conn) (h : HeaderMap) : Conn :=
  mkConn h (code c) (body c).

(** A second [WriteHeader] is superfluous and ignored. *)
Definition connWriteHeader (c : Conn) (st : Z) : Conn :=
  match code c with
  | Some _ => c
  | None => mkConn (header c) (Some st) (body c)
  end.

(** [Write] sends the status line first if the handler has not. *)
Definition connWrite (c : Conn) (b : string) : Conn :=
  let c' := connWriteHeader c StatusOK in
  mkConn (header c') (code c') (body c' ++ b).

End Http.

(** [type ResponseWriter struct { inner http.ResponseWriter; status int }] *)
Record ResponseWriter : Type := mkResponseWriter {
  inner : Http.Conn;
  status : Z
}.

(** What a handler run leaves behind: the writer, the file-system calls
    it made, in order, and the lines it printed on standard error. *)
Inductive FsOp : Type :=
| OpStat (path : string)
| OpReadDir (path : string)
| OpOpen (path : string)
| OpClose (path : string).

Record HState : Type := mkHState {
  rw : ResponseWriter;
  ops : list FsOp;
  stderr : list string
}.

Definition Handler (A : Type) : Type := HState -> A * HState.

Definition ret {A} (a : A) : Handler A := fun s => (a, s).

Definition bind {A B} (m : Handler A) (k : A -> Handler B) : Handler B :=
  fun s => let (a, s') := m s in k a s'.

Declare Scope handler_scope.
Delimit Scope handler_scope with handler.
Notation "x <- m ;; k" := (bind m (fun x => k))
  (at level 61, m at next level, right associativity) : handler_scope.
Notation "m ;; k" := (bind m (fun _ => k))
  (at level 61, right associativity) : handler_scope.
Local Open Scope handler_scope.

Definition modifyRW (f : ResponseWriter -> ResponseWriter) : Handler unit :=
  fun s => (tt, mkHState (f (rw s)) (ops s) (stderr s)).

Definition fsCall {A} (op : FsOp) (answer : A) : Handler A :=
  fun s => (answer, mkHState (rw s) (ops s ++ [op]) (stderr s)).

Definition eprint (line : string) : Handler unit :=
  fun s => (tt, mkHState (rw s) (ops s) (stderr s ++ [line])).

Definition exec {A} (m : Handler A) (s : HState) : HState := snd (m s).

(** The state a request starts from: [pw := &ResponseWriter{w, 200}] on a
    fresh connection. *)
Definition start : HState :=
  mkHState (mkResponseWriter Http.newConn 200) [] [].

(* ===================================================================== *)
(** ** The methods of [ResponseWriter] *)
(* ===================================================================== *)

(** [func (w *ResponseWriter) Header() http.Header] *)
Definition Header : Handler Http.HeaderMap :=
  fun s => (Http.header (inner (rw s)), s).

Definition setHeader (h : Http.HeaderMap) : Handler unit :=
  modifyRW (fun pw => mkResponseWriter (Http.connSetHeader (inner pw) h)
                                       (status pw)).

(** [func (w *ResponseWriter) WriteHeader(code int)]: the code is kept in
    [status] and passed on. *)
Definition WriteHeader (code : Z) : Handler unit :=
  modifyRW (fun pw => mkResponseWriter (Http.connWriteHeader (inner pw) code)
                                       code).

(** [func (w *ResponseWriter) Write(b []byte) (int, error)] *)
Definition Write (w : World) (b : string) : Handler (option Error) :=
  modifyRW (fun pw => mkResponseWriter (Http.connWrite (inner pw) b)
                                       (status pw)) ;;
  ret (ConnWrite w).

(* ===================================================================== *)
(** ** net/http: the responders the handler delegates to *)
(* ===================================================================== *)

Module HttpLib.
Import Strings Http.

Section WithWorld.
Variable w : World.

Definition headerSet (k v : string) : Handler unit :=
  h <- Header ;; setHeader (Set_ h k v).

Definition headerDel (k : string) : Handler unit :=
  h <- Header ;; setHeader (Del h k).

(** [http.Error(w, error, code)] *)
Definition Error_ (error : string) (code : Z) : Handler unit :=
  headerSet "Content-Type" "text/plain; charset=utf-8" ;;
  headerSet "X-Content-Type-Options" "nosniff" ;;
  WriteHeader code ;;
  _ <- Write w (error ++ nl) ;;
  ret tt.

(** [http.NotFound(w, r)] *)
Definition NotFound (r : Request) : Handler unit :=
  Error_ "404 page not found" StatusNotFound.

(** The zero [time.Time] (January 1, year 1) in Unix nanoseconds. *)
Definition zeroTime : Z := -62135596800 * 1000000000.

Definition isZeroTime (t : Z) : bool := (t =? zeroTime) || (t =? 0).

(** [modtime.Truncate(time.Second)], as Unix seconds. *)
Definition truncateSecond (t : Z) : Z := t / 1000000000.

Definition setLastModified (modtime : Z) : Handler unit :=
  if isZeroTime modtime then ret tt
  else headerSet "Last-Modified" (TimeFormat w (truncateSecond modtime)).

Inductive condResult : Type := condNone | condTrue | condFalse.

Definition checkIfModifiedSince (r : Request) (modtime : Z) : condResult :=
  if negb (String.eqb (Method r) "GET") &&
     negb (String.eqb (Method r) "HEAD") then condNone
  else match IfModifiedSince r with
       | None => condNone
       | Some t =>
           if isZeroTime modtime then condNone
           else if truncateSecond modtime <=? t then condFalse
           else condTrue
       end.

Definition writeNotModified : Handler unit :=
  headerDel "Content-Type" ;;
  headerDel "Content-Length" ;;
  headerDel "Content-Encoding" ;;
  h <- Header ;;
  (if String.eqb (Get h "Etag") EmptyString then ret tt
   else headerDel "Last-Modified") ;;
  WriteHeader StatusNotModified.

(** [mime.TypeByExtension]: every key of the table starts with a dot,
    so an extension without one has no type. *)
Definition TypeByExtension (ext : string) : string :=
  match ext with
  | String "." e => MimeTypes w e
  | _ => EmptyString
  end.

Definition sniffLen : nat := 512.

(** [http.ServeContent(w, r, name, modtime, content)] for a request
    without [Range] and with [If-Modified-Since] as its only
    precondition. *)
Definition ServeContent (r : Request) (name : string) (modtime : Z)
           (content : File) : Handler unit :=
  setLastModified modtime ;;
  match checkIfModifiedSince r modtime with
  | condFalse => writeNotModified
  | _ =>
      h <- Header ;;
      (match Lookup h "Content-Type" with
       | Some _ => ret tt
       | None =>
           let ctype := TypeByExtension (Filepath.Ext name) in
           let ctype :=
             if String.eqb ctype EmptyString
             then DetectContentType w
                    (substring 0 sniffLen (Content content))
             else ctype in
           headerSet "Content-Type" ctype
       end) ;;
      headerSet "Accept-Ranges" "bytes" ;;
      h <- Header ;;
      (if String.eqb (Get h "Content-Encoding") EmptyString
       then headerSet "Content-Length"
              (Itoa (Z.of_nat (String.length (Content content))))
       else ret tt) ;;
      WriteHeader StatusOK ;;
      if String.eqb (Method r) "HEAD" then ret tt
      else (_ <- Write w (Content content) ;; ret tt)
  end.

End WithWorld.
End HttpLib.

(* ===================================================================== *)
(** ** main.go *)
(* ===================================================================== *)

Module Main.
Import Strings.

(** [func init()]: the values of the flags when none is given; [file] has
    no flag and starts empty. *)
Definition flagDefaults : Globals :=
  mkGlobals EmptyString EmptyString EmptyString 8000.

Section WithWorld.
Variable w : World.

Definition os_Stat (name : string) : Handler (result FileInfo) :=
  fsCall (OpStat name) (Stat w name).

Definition ioutil_ReadDir (name : string)
  : Handler (result (list FileInfo)) :=
  fsCall (OpReadDir name) (ReadDir w name).

Definition os_Open (name : string) : Handler (result File) :=
  fsCall (OpOpen name) (Open w name).

Definition Close (name : string) (f : File) : Handler (option Error) :=
  fsCall (OpClose name) (CloseErr f).

(** [func log(format string, a ...interface{})]: the line it prints. *)
Definition logLine (format : string) (a : list string) : string :=
  let format :=
    if negb (HasSuffix format nl) then format ++ nl else format in
  let format := Now w ++ format in
  Sprintf format a.

Definition log (format : string) (a : list string) : Handler unit :=
  eprint (logLine format a).

(** [func internalServerError(w http.ResponseWriter)] *)
Definition internalServerError : Handler unit :=
  HttpLib.Error_ w "internal server error." 500.

(** The page template and the line template of [listFiles]. *)
Definition html : string := Eval vm_compute in
  "<!DOCTYPE html>" ++ nl ++
  "<html lang=" ++ dq ++ "en" ++ dq ++ ">" ++ nl ++
  "<head>" ++ nl ++
  "    <meta charset=" ++ dq ++ "UTF-8" ++ dq ++ ">" ++ nl ++
  "    <title>%s</title>" ++ nl ++
  "</head>" ++ nl ++
  "<body>" ++ nl ++
  "<h1>Index of %s</h1>" ++ nl ++
  "<hr>" ++ nl ++
  "<p>" ++ nl ++
  "%s</p>" ++ nl ++
  "</body>" ++ nl ++
  "</html>".

Definition anchor : string := Eval vm_compute in
  "<a href=" ++ dq ++ "%s" ++ dq ++ ">%s</a><br>" ++ nl.

(** [func listFiles(w, r, files) error] *)
Definition listFiles (r : Request) (files : list string)
  : Handler (option Error) :=
  let buf :=
    fold_left
      (fun buf file =>
         buf ++ Sprintf anchor [Filepath.Join [URLPath r; file]; file])
      files EmptyString in
  Write w (Sprintf html [URLPath r; URLPath r; buf]).

Section WithGlobals.
Variable g : Globals.

(** [func serve(w http.ResponseWriter, r *http.Request)] *)
Definition serve (r : Request) : Handler unit :=
  if negb (String.eqb (URLPath r) "/") &&
     (negb (String.eqb (file g) "*") &&
      negb (String.eqb (Trim (URLPath r) "/") (file g)))
  then HttpLib.NotFound w r
  else
    let query := Filepath.Join [root g; URLPath r] in
    st <- os_Stat query ;;
    match st with
    | Err err =>
        if IsNotExist err then HttpLib.NotFound w r
        else
          log "fail to stat file %s: %s." [query; ErrorText err] ;;
          internalServerError
    | Ok fi =>
        if IsDir fi then
          files <-
            (if String.eqb (file g) "*" then
               let files :=
                 if negb (String.eqb (URLPath r) "/") then [".."]
                 else [] in
               fis <- ioutil_ReadDir query ;;
               match fis with
               | Err _ => internalServerError ;; ret None
               | Ok fis => ret (Some (files ++ map Name fis)%list)
               end
             else ret (Some [file g])) ;;
          match files with
          | None => ret tt
          | Some files =>
              err <- listFiles r files ;;
              match err with
              | Some err =>
                  log "fail to list files %s: %s."
                      [query; ErrorText err]
              | None => ret tt
              end
          end
        else
          f <- os_Open query ;;
          match f with
          | Err err =>
              log "fail to open file %s: %s." [query; ErrorText err] ;;
              internalServerError
          | Ok f =>
              HttpLib.ServeContent w r "foo" (ModTime fi) f ;;
              err <- Close query f ;;
              match err with
              | Some err =>
                  log "fail to close %s: %s." [query; ErrorText err]
              | None => ret tt
              end
          end
    end.

(** The client part of [r.RemoteAddr] as the closure of [main] prints it:
    [if strings.Contains(ip, ":") { ip = strings.Split(ip, ":")[0] }]. *)
Definition remoteIP (r : Request) : string :=
  let ip := RemoteAddr r in
  if containsChar ":" ip then hd EmptyString (Split ip ":") else ip.

(** The closure [main] registers for the pattern [/]: [serve] on the
    wrapped writer, then the deferred access line, whose text is handed
    to [log] as the format. *)
Definition handleFunc (r : Request) : Handler unit :=
  serve r ;;
  (fun s =>
     log (Strings.Join ["[" ++ remoteIP r ++ "]"; Itoa (status (rw s));
                        URLPath r] " ")
         [] s).
End WithGlobals.

(** [os.Getwd()] as the pair Go returns. *)
Definition os_Getwd : string * option Error :=
  match Getwd w with
  | Ok dir => (dir, None)
  | Err err => (EmptyString, Some err)
  end.

(** [filepath.Abs] *)
Definition filepath_Abs (path : string) : string * option Error :=
  if Filepath.IsAbs path then (Filepath.Clean path, None)
  else match os_Getwd with
       | (_, Some err) => (EmptyString, Some err)
       | (wd, None) => (Filepath.Join [wd; path], None)
       end.

(** [func resolvePath() error], on the globals it assigns. *)
Definition resolvePath (g : Globals) : option Error * Globals :=
  let g :=
    if (String.length (root g) =? 0)%nat
    then setRoot g (fst os_Getwd) else g in
  match Stat w (root g) with
  | Err err => (Some err, g)
  | Ok fi =>
      if IsDir fi then
        let (abs, _) := filepath_Abs (root g) in
        (None, setFile (setRoot g abs) "*")
      else
        match filepath_Abs (root g) with
        | (_, Some err) => (Some err, g)
        | (abs, None) =>
            (None,
             setFile (setRoot g (Filepath.Dir abs)) (Filepath.Base abs))
        end
  end.

(** The loop of [resolveInterface]: the first [*net.IPNet] address
    with an IPv4 form. *)
Fixpoint firstIPv4 (addrs : list Addr) : option IP :=
  match addrs with
  | [] => None
  | IPNet ip :: rest => if To4 ip then Some ip else firstIPv4 rest
  | OtherAddr :: rest => firstIPv4 rest
  end.

(** [func resolveInterface() (string, error)] with the lines it
    logs. *)
Definition resolveInterface (g : Globals)
  : (string * option Error) * list string :=
  let n :=
    if (0 <? String.length (netIF g))%nat
    then InterfaceByName w (netIF g)
    else InterfaceByIndex w 1 in
  match n with
  | Err err => ((EmptyString, Some err), [])
  | Ok n =>
      match Addrs n with
      | Err err => ((EmptyString, Some err), [])
      | Ok addrs =>
          match firstIPv4 addrs with
          | Some ip =>
              ((IPString ip, None),
               [logLine "choosing interface: %s." [IfName n]])
          | None =>
              ((EmptyString, Some (mkError false "fail to find addr")),
               [])
          end
      end
  end.

(** How [main] ends: [os.Exit(10)] after printing the error, or the
    server listening on [addr] with the resolved globals. *)
Inductive Outcome : Type :=
| Exit (code : Z)
| Serving (addr : string) (g : Globals).

(** [func exit(msg interface{})]: the line printed before
    [os.Exit(10)]. *)
Definition exit (msg : Error) : Outcome * list string :=
  (Exit 10, [ErrorText msg ++ nl]).

Definition after {A} (out : list string) (r : A * list string)
  : A * list string := (fst r, (out ++ snd r)%list).

(** [func main()] up to [http.ListenAndServe]. *)
Definition main (g : Globals) : Outcome * list string :=
  match resolvePath g with
  | (Some err, _) => exit err
  | (None, g) =>
      match resolveInterface g with
      | ((_, Some err), out) => after out (exit err)
      | ((ip, None), out) =>
          let addr := ip ++ ":" ++ Itoa (port g) in
          let out := (out ++ [logLine "serveing on http://%s." [addr]])%list in
          match ListenAndServe w addr with
          | Some err => after out (exit err)
          | None => (Serving addr g, out)
          end
      end
  end.

End WithWorld.
End Main.

(* ===================================================================== *)
(** ** Vocabulary of the specification *)
(* ===================================================================== *)

Module Spec.
Import Strings.

(** The access policy of the handler: a request is let through to the
    file system when it asks for the root path, when everything under
    the root is served, or when it names the one served file. *)
Definition passes (g : Globals) (r : Request) : Prop :=
  URLPath r = "/" \/ file g = "*" \/ Trim (URLPath r) "/" = file g.

Definition rejected (g : Globals) (r : Request) : Prop :=
  URLPath r <> "/" /\ file g <> "*" /\ Trim (URLPath r) "/" <> file g.

(** The file-system path a request resolves to. *)
Definition resolved (g : Globals) (r : Request) : string :=
  Filepath.Join [root g; URLPath r].

(** What the client sees and what the operator sees. *)
Definition statusLine (s : HState) : option Z := Http.code (inner (rw s)).
Definition headers (s : HState) : Http.HeaderMap :=
  Http.header (inner (rw s)).
Definition sent (s : HState) : string := Http.body (inner (rw s)).

(** The directory page as the specification describes it: one line per
    entry, inside a fixed frame that carries the request path twice. *)
Definition entryLine (path name : string) : string :=
  "<a href=" ++ dq ++ Filepath.Join [path; name] ++ dq ++ ">" ++ name
  ++ "</a><br>" ++ nl.

Definition page (path : string) (entries : list string) : string :=
  "<!DOCTYPE html>" ++ nl ++
  "<html lang=" ++ dq ++ "en" ++ dq ++ ">" ++ nl ++
  "<head>" ++ nl ++
  "    <meta charset=" ++ dq ++ "UTF-8" ++ dq ++ ">" ++ nl ++
  "    <title>" ++ path ++ "</title>" ++ nl ++
  "</head>" ++ nl ++
  "<body>" ++ nl ++
  "<h1>Index of " ++ path ++ "</h1>" ++ nl ++
  "<hr>" ++ nl ++
  "<p>" ++ nl ++
  String.concat EmptyString (map (entryLine path) entries) ++
  "</p>" ++ nl ++
  "</body>" ++ nl ++
  "</html>".

(** The entries of a listing in serve-everything mode. *)
Definition children (r : Request) (fis : list FileInfo) : list string :=
  (if String.eqb (URLPath r) "/" then [] else [".."]) ++ map Name fis.

(** [p] is [dir] itself or lies below it. *)
Definition within (dir p : string) : bool :=
  String.eqb p dir || HasPrefix p (dir ++ "/") ||
  (String.eqb dir "/" && HasPrefix p "/").

(** A path element that names something: not empty, not [.], not [..],
    and free of separators. *)
Definition properElem (c : string) : bool :=
  negb (String.eqb c EmptyString) && negb (String.eqb c ".") &&
  negb (String.eqb c "..") && negb (containsChar Separator c).

(** The clean absolute path with the elements [cs]. *)
Definition absolute (cs : list string) : string :=
  "/" ++ Strings.Join cs "/".

(** No element of the path is [..]. *)
Definition noDotDot (path : string) : bool :=
  forallb (fun c => negb (String.eqb c "..")) (Split path Separator).

(** The same world with another MIME table. *)
Definition withMimeTypes (w : World) (m : string -> string) : World :=
  mkWorld (Getwd w) (Stat w) (ReadDir w) (Open w) (InterfaceByName w)
          (InterfaceByIndex w) (ListenAndServe w) (ConnWrite w) (Now w)
          m (DetectContentType w) (TimeFormat w).

(** The argument [resolvePath] works on: the [-f] flag, or the working
    directory when the flag is empty. *)
Definition argument (w : World) (g : Globals) : string :=
  match root g with
  | EmptyString => fst (Main.os_Getwd w)
  | _ => root g
  end.

(** The answer of [internalServerError] on a fresh connection. *)
Definition genericError : ResponseWriter :=
  mkResponseWriter
    (Http.mkConn [("X-Content-Type-Options", "nosniff");
                  ("Content-Type", "text/plain; charset=utf-8")]
                 (Some Http.StatusInternalServerError)
                 ("internal server error." ++ nl))
    Http.StatusInternalServerError.

(** [m] keeps [J]: from a state where [J] holds it ends in one. *)
Definition preserves {A} (J : HState -> Prop) (m : Handler A) : Prop :=
  forall s, J s -> J (snd (m s)).

(** The stat of [q] was the first file-system call and no 404 has been
    written. *)
Definition statFirstNo404 (q : string) (s : HState) : Prop :=
  (exists rest, ops s = OpStat q :: rest) /\
  statusLine s <> Some Http.StatusNotFound.

(** The response carries this [Content-Type], or none. *)
Definition hasContentType (x : option string) (s : HState) : Prop :=
  Http.Lookup (headers s) "Content-Type" = x.

(** The path a file-system call names. *)
Definition opPath (op : FsOp) : string :=
  match op with
  | OpStat p | OpReadDir p | OpOpen p | OpClose p => p
  end.

(** Every file-system call of the run stays at or below the root. *)
Definition confined (w : World) (g : Globals) (r : Request) : Prop :=
  Forall (fun op => within (root g) (opPath op) = true)
         (ops (exec (Main.serve w g r) start)).

(** Conditional GET as the specification words it, for one request:
    whenever the resolved path is a regular file, an
    [If-Modified-Since] equal to its modification time is answered 304
    and an earlier one 200. *)
Definition honoursIfModifiedSince (w : World) (g : Globals) (r : Request)
  : Prop :=
  forall fi,
    passes g r ->
    Stat w (resolved g r) = Ok fi ->
    IsDir fi = false ->
    let out := exec (Main.serve w g r) start in
    let mtime := HttpLib.truncateSecond (ModTime fi) in
    (IfModifiedSince r = Some mtime ->
     statusLine out = Some Http.StatusNotModified) /\
    (forall t, IfModifiedSince r = Some t -> t < mtime ->
               statusLine out = Some Http.StatusOK).

(** A run of [n] separators. *)
Fixpoint slashes (n : nat) : string :=
  match n with
  | O => EmptyString
  | S n' => String Separator (slashes n')
  end.

(** The interface [resolveInterface] asks for: the named one, or the one
    with index 1. *)
Definition interfaceLookup (w : World) (g : Globals) : result Interface :=
  match netIF g with
  | EmptyString => InterfaceByIndex w 1
  | name => InterfaceByName w name
  end.

(** An address [resolveInterface] passes over. *)
Definition notIPv4 (a : Addr) : bool :=
  match a with
  | IPNet ip => negb (To4 ip)
  | OtherAddr => true
  end.

(** Text without a percent sign, and text without a line feed as well. *)
Definition verbFree (s : string) : bool := negb (containsChar "%" s).

Definition plain (s : string) : bool :=
  verbFree s && negb (containsChar "010" s).

(** One line of a directory page and the frame around the lines, with
    the link target given as such. *)
Definition linkLine (href name : string) : string :=
  "<a href=" ++ dq ++ href ++ dq ++ ">" ++ name ++ "</a><br>" ++ nl.

Definition framed (path body : string) : string :=
  "<!DOCTYPE html>" ++ nl ++
  "<html lang=" ++ dq ++ "en" ++ dq ++ ">" ++ nl ++
  "<head>" ++ nl ++
  "    <meta charset=" ++ dq ++ "UTF-8" ++ dq ++ ">" ++ nl ++
  "    <title>" ++ path ++ "</title>" ++ nl ++
  "</head>" ++ nl ++
  "<body>" ++ nl ++
  "<h1>Index of " ++ path ++ "</h1>" ++ nl ++
  "<hr>" ++ nl ++
  "<p>" ++ nl ++
  body ++
  "</p>" ++ nl ++
  "</body>" ++ nl ++
  "</html>".

(** The file-system calls of one run, by shape. *)
Inductive opsShape (q : string) : list FsOp -> Prop :=
| shapeNone : opsShape q []
| shapeStat : opsShape q [OpStat q]
| shapeList : opsShape q [OpStat q; OpReadDir q]
| shapeOpenFailed : opsShape q [OpStat q; OpOpen q]
| shapeServed : opsShape q [OpStat q; OpOpen q; OpClose q].

End Spec.

(* ===================================================================== *)
(** ** A small world to run the program in *)
(* ===================================================================== *)

Module Demo.

Definition enoent : Error := mkError true "no such file or directory".
Definition eacces : Error := mkError false "permission denied".

(** [/srv/site] holds [ancient.txt], dated at the Unix epoch,
    [index.html], [other.html], [style.css], the
    unreadable [locked.txt], the directory [sub] and the unreadable
    directory [sealed]; [/srv/secret] lies beside it; [/srv/site/vault]
    cannot be searched. *)
Definition mtime : Z := 1500000000 * 1000000000 + 250000000.

Definition ancient : FileInfo := mkFileInfo "ancient.txt" false 0.

Definition stat (p : string) : result FileInfo :=
  if String.eqb p "/srv/site" then Ok (mkFileInfo "site" true mtime)
  else if String.eqb p "/srv/site/ancient.txt" then Ok ancient
  else if String.eqb p "/srv/site/index.html"
  then Ok (mkFileInfo "index.html" false mtime)
  else if String.eqb p "/srv/site/locked.txt"
  then Ok (mkFileInfo "locked.txt" false mtime)
  else if String.eqb p "/srv/site/other.html"
  then Ok (mkFileInfo "other.html" false mtime)
  else if String.eqb p "/srv/site/style.css"
  then Ok (mkFileInfo "style.css" false mtime)
  else if String.eqb p "/srv/site/sub" then Ok (mkFileInfo "sub" true mtime)
  else if String.eqb p "/srv/site/sealed"
  then Ok (mkFileInfo "sealed" true mtime)
  else if String.eqb p "/srv/secret"
  then Ok (mkFileInfo "secret" false mtime)
  else if String.eqb p "/srv/site/vault/x" then Err eacces
  else Err enoent.

Definition readdir (p : string) : result (list FileInfo) :=
  if String.eqb p "/srv/site"
  then Ok [ancient;
           mkFileInfo "index.html" false mtime;
           mkFileInfo "locked.txt" false mtime;
           mkFileInfo "other.html" false mtime;
           mkFileInfo "sealed" true mtime;
           mkFileInfo "style.css" false mtime;
           mkFileInfo "sub" true mtime]
  else if String.eqb p "/srv/site/sub"
  then Ok [mkFileInfo "a.txt" false mtime]
  else if String.eqb p "/srv/site/sealed" then Err eacces
  else Err enoent.

Definition open (p : string) : result File :=
  if String.eqb p "/srv/site/ancient.txt" then Ok (mkFile "old" None)
  else if String.eqb p "/srv/site/index.html"
  then Ok (mkFile "<html>hi</html>" None)
  else if String.eqb p "/srv/site/other.html"
  then Ok (mkFile "<html>other</html>" None)
  else if String.eqb p "/srv/site/style.css"
  then Ok (mkFile "body { margin: 0 }" None)
  else if String.eqb p "/srv/secret" then Ok (mkFile "top secret" None)
  else Err eacces.

Definition lo : Interface :=
  mkInterface "lo" (Ok [OtherAddr; IPNet (mkIP true "127.0.0.1")]).

Definition world : World :=
  mkWorld (Ok "/srv/site") stat readdir open
          (fun _ => Err enoent) (fun _ => Ok lo) (fun _ => None) None
          "2020.01.02 03:04:05 "
          (fun e => if String.eqb e "html" then "text/html; charset=utf-8"
                    else if String.eqb e "css"
                    then "text/css; charset=utf-8"
                    else EmptyString)
          (fun data => if Strings.HasPrefix data "<html"
                       then "text/html; charset=utf-8"
                       else "text/plain; charset=utf-8")
          (fun _ => "Fri, 14 Jul 2017 02:40:00 GMT").

Definition everything : Globals :=
  mkGlobals "/srv/site" "*" EmptyString 8000.
Definition oneFile : Globals :=
  mkGlobals "/srv/site" "index.html" EmptyString 8000.

Definition get (path : string) : Request :=
  mkRequest "GET" path None "192.0.2.7:40000".
Definition connect (path : string) : Request :=
  mkRequest "CONNECT" path None "192.0.2.7:40000".
Definition getSince (path : string) (t : Z) : Request :=
  mkRequest "GET" path (Some t) "192.0.2.7:40000".

End Demo.

(* ===================================================================== *)
(** ** Worlds for the corner cases *)
(* ===================================================================== *)

Module Edge.

(** The working directory has been removed under the process: [os.Getwd]
    fails while [.] can still be stat-ed. *)
Definition gone : Error := mkError true "getwd: no such file or directory".

Definition orphaned : World :=
  mkWorld (Err gone)
          (fun p => if String.eqb p "." then Ok (mkFileInfo "." true Demo.mtime)
                    else Demo.stat p)
          Demo.readdir Demo.open
          (fun _ => Err Demo.enoent) (fun _ => Ok Demo.lo) (fun _ => None)
          None "2020.01.02 03:04:05 "
          (fun _ => EmptyString) (fun _ => "text/plain; charset=utf-8")
          (fun _ => "Fri, 14 Jul 2017 02:40:00 GMT").

(** [/srv/site] holds a regular file whose name is the asterisk. *)
Definition starred : World :=
  mkWorld (Ok "/srv/site")
          (fun p => if String.eqb p "/srv/site/*"
                    then Ok (mkFileInfo "*" false Demo.mtime)
                    else Demo.stat p)
          Demo.readdir Demo.open
          (fun _ => Err Demo.enoent) (fun _ => Ok Demo.lo) (fun _ => None)
          None "2020.01.02 03:04:05 "
          (fun _ => EmptyString) (fun _ => "text/plain; charset=utf-8")
          (fun _ => "Fri, 14 Jul 2017 02:40:00 GMT").

(** The connection is gone when the page is written, and the file does
    not close cleanly. *)
Definition eio : Error := mkError false "input/output error".
Definition epipe : Error := mkError false "broken pipe".

Definition flaky : World :=
  mkWorld (Ok "/srv/site") Demo.stat Demo.readdir
          (fun p => if String.eqb p "/srv/site/index.html"
                    then Ok (mkFile "<html>hi</html>" (Some eio))
                    else Demo.open p)
          (fun _ => Err Demo.enoent) (fun _ => Ok Demo.lo) (fun _ => None)
          (Some epipe) "2020.01.02 03:04:05 "
          (fun _ => EmptyString) (fun _ => "text/plain; charset=utf-8")
          (fun _ => "Fri, 14 Jul 2017 02:40:00 GMT").

(** An interface with an IPv6 address before its IPv4 one, and one
    without any IPv4 address. *)
Definition eth0 : Interface :=
  mkInterface "eth0"
    (Ok [IPNet (mkIP false "fe80::1"); OtherAddr;
         IPNet (mkIP true "192.0.2.10"); IPNet (mkIP true "192.0.2.11")]).

Definition sit0 : Interface :=
  mkInterface "sit0" (Ok [IPNet (mkIP false "fe80::2"); OtherAddr]).

Definition wired : World :=
  mkWorld (Ok "/srv/site") Demo.stat Demo.readdir Demo.open
          (fun name => if String.eqb name "eth0" then Ok eth0
                       else if String.eqb name "sit0" then Ok sit0
                       else Err Demo.enoent)
          (fun _ => Ok Demo.lo) (fun _ => None)
          None "2020.01.02 03:04:05 "
          (fun _ => EmptyString) (fun _ => "text/plain; charset=utf-8")
          (fun _ => "Fri, 14 Jul 2017 02:40:00 GMT").

End Edge.

(* ===================================================================== *)
(** ** Properties *)
(* ===================================================================== *)

Module Properties.
Import Strings Http HttpLib Main Spec.

(** *** The library functions on sample inputs *)

Example trim_slashes : Trim "//a/b///" "/" = "a/b".
Proof. reflexivity. Qed.

Example clean_dotdot :
  Filepath.Clean "/srv/site//../x/./y/" = "/srv/x/y".
Proof. reflexivity. Qed.

Example clean_relative : Filepath.Clean "a/../../b" = "../b".
Proof. reflexivity. Qed.

Example clean_root_dotdot : Filepath.Clean "/../.." = "/".
Proof. reflexivity. Qed.

Example join_root : Filepath.Join ["/srv/site"; "/"] = "/srv/site".
Proof. reflexivity. Qed.

Example join_empty_first : Filepath.Join [EmptyString; "/x"] = "/x".
Proof. reflexivity. Qed.

Example dir_base :
  Filepath.Dir "/srv/site/index.html" = "/srv/site" /\
  Filepath.Base "/srv/site/index.html" = "index.html".
Proof. split; reflexivity. Qed.

Example base_slashes :
  Filepath.Base "///" = "/" /\ Filepath.Base "a/b//" = "b".
Proof. split; reflexivity. Qed.

Example ext_samples :
  Filepath.Ext "foo" = EmptyString /\
  Filepath.Ext "a.b/c.tar.gz" = ".gz" /\
  Filepath.Ext "a.b/c" = EmptyString.
Proof. repeat split; reflexivity. Qed.

Example sprintf_two :
  Sprintf "fail to stat file %s: %s." ["/x"; "boom"]
  = "fail to stat file /x: boom.".
Proof. reflexivity. Qed.

Example itoa_8000 : Itoa 8000 = "8000".
Proof. reflexivity. Qed.

Example main_serves :
  fst (main Demo.world (mkGlobals "/srv/site" EmptyString EmptyString 8000))
  = Serving "127.0.0.1:8000"
            (mkGlobals "/srv/site" "*" EmptyString 8000).
Proof. reflexivity. Qed.

(** *** The access check *)

Section AccessCheck.
Variables (w : World) (g : Globals) (r : Request).

Lemma rejected_guard :
  rejected g r ->
  negb (String.eqb (URLPath r) "/") &&
  (negb (String.eqb (file g) "*") &&
   negb (String.eqb (Trim (URLPath r) "/") (file g))) = true.
Proof.
  intros (Hp & Hf & Ht).
  apply String.eqb_neq in Hp, Hf, Ht.
  now rewrite Hp, Hf, Ht.
Qed.

Lemma passes_guard :
  passes g r ->
  negb (String.eqb (URLPath r) "/") &&
  (negb (String.eqb (file g) "*") &&
   negb (String.eqb (Trim (URLPath r) "/") (file g))) = false.
Proof.
  unfold passes. intros H.
  destruct (String.eqb_spec (URLPath r) "/"); simpl; trivial.
  destruct (String.eqb_spec (file g) "*"); simpl; trivial.
  destruct (String.eqb_spec (Trim (URLPath r) "/") (file g)); simpl;
    trivial.
  tauto.
Qed.

Lemma passes_or_rejected : passes g r \/ rejected g r.
Proof.
  unfold passes, rejected.
  destruct (String.eqb_spec (URLPath r) "/"); auto.
  destruct (String.eqb_spec (file g) "*"); auto.
  destruct (String.eqb_spec (Trim (URLPath r) "/") (file g)); auto.
Qed.

(** A request the policy turns away is answered by [http.NotFound]
    and nothing else happens. *)
Lemma serve_rejected :
  rejected g r -> serve w g r = NotFound w r.
Proof.
  intros H. unfold serve. now rewrite (rejected_guard H).
Qed.

(** A request the policy lets through goes on to [os.Stat]. *)
Lemma serve_passes :
  passes g r ->
  exists k,
    serve w g r = bind (os_Stat w (resolved g r)) k.
Proof.
  intros H. unfold serve. rewrite (passes_guard H). eauto.
Qed.
End AccessCheck.

(** *** Running the handler *)

Lemma exec_bind {A B} (m : Handler A) (k : A -> Handler B) (s : HState) :
  exec (bind m k) s = exec (k (fst (m s))) (snd (m s)).
Proof. unfold exec, bind. now destruct (m s). Qed.

Lemma exec_stat (w : World) (q : string) (k : result FileInfo -> Handler unit)
      (s : HState) :
  exec (bind (os_Stat w q) k) s =
  exec (k (Stat w q)) (mkHState (rw s) (ops s ++ [OpStat q]) (stderr s)).
Proof. reflexivity. Qed.

(** C1: in single-file mode a request for anything but the root path or
    the served file is answered 404 Not Found, whatever the file system
    holds, and the handler makes no file-system call at all. *)
Theorem serve_rejected_is_404 (w : World) (g : Globals) (r : Request) :
  URLPath r <> "/" ->
  file g <> "*" ->
  Trim (URLPath r) "/" <> file g ->
  let out := exec (serve w g r) start in
  statusLine out = Some StatusNotFound /\
  status (rw out) = StatusNotFound /\
  sent out = "404 page not found" ++ nl /\
  ops out = [] /\
  stderr out = [].
Proof.
  intros Hp Hf Ht.
  rewrite (serve_rejected w g r (conj Hp (conj Hf Ht))).
  repeat split.
Qed.

Lemma serve_rejected_is_404_witness :
  let out := exec (serve Demo.world Demo.oneFile (Demo.get "/other.html"))
                  start in
  Stat Demo.world "/srv/site/other.html"
    = Ok (mkFileInfo "other.html" false Demo.mtime) /\
  statusLine out = Some StatusNotFound /\
  ops out = [].
Proof.
  split; [reflexivity|].
  assert (H := serve_rejected_is_404 Demo.world Demo.oneFile
                 (Demo.get "/other.html")).
  cbv zeta in H.
  destruct H as (H1 & _ & _ & H4 & _).
  - discriminate.
  - discriminate.
  - vm_compute. discriminate.
  - split; assumption.
Defined.

Lemma serve_stat (w : World) (g : Globals) (r : Request) :
  passes g r ->
  forall s,
    exec (serve w g r) s =
    exec
      (match Stat w (resolved g r) with
       | Err err =>
           if IsNotExist err then NotFound w r
           else
             bind (log w "fail to stat file %s: %s."
                       [resolved g r; ErrorText err])
                  (fun _ => internalServerError w)
       | Ok fi =>
           if IsDir fi then
             bind
               (if String.eqb (file g) "*" then
                  bind (ioutil_ReadDir w (resolved g r))
                       (fun fis =>
                          match fis with
                          | Err _ =>
                              bind (internalServerError w)
                                   (fun _ => ret None)
                          | Ok fis => ret (Some (children r fis))
                          end)
                else ret (Some [file g]))
               (fun files =>
                  match files with
                  | None => ret tt
                  | Some files =>
                      bind (listFiles w r files)
                           (fun err =>
                              match err with
                              | Some err =>
                                  log w "fail to list files %s: %s."
                                      [resolved g r; ErrorText err]
                              | None => ret tt
                              end)
                  end)
           else
             bind (os_Open w (resolved g r))
                  (fun f =>
                     match f with
                     | Err err =>
                         bind (log w "fail to open file %s: %s."
                                   [resolved g r; ErrorText err])
                              (fun _ => internalServerError w)
                     | Ok f =>
                         bind (ServeContent w r "foo" (ModTime fi) f)
                              (fun _ =>
                                 bind (Close (resolved g r) f)
                                      (fun err =>
                                         match err with
                                         | Some err =>
                                             log w "fail to close %s: %s."
                                                 [resolved g r;
                                                  ErrorText err]
                                         | None => ret tt
                                         end))
                     end)
       end)
      (mkHState (rw s) (ops s ++ [OpStat (resolved g r)]) (stderr s)).
Proof.
  intros H s. unfold serve. rewrite (passes_guard g r H).
  cbv zeta. rewrite exec_stat. fold (resolved g r).
  unfold children.
  destruct (Stat w (resolved g r)) as [fi|e]; [|reflexivity].
  destruct (IsDir fi); [|reflexivity].
  destruct (String.eqb (file g) "*"); [|reflexivity].
  destruct (String.eqb (URLPath r) "/"); reflexivity.
Qed.

(** C4: when the stat of the resolved path fails, a not-exists error is
    answered 404 Not Found; any other error is answered 500 with the
    fixed generic body and headers, and the text of the error appears
    only in the line written to the operational log. *)
Theorem serve_stat_failure (w : World) (g : Globals) (r : Request)
        (e : Error) :
  passes g r ->
  Stat w (resolved g r) = Err e ->
  let out := exec (serve w g r) start in
  ops out = [OpStat (resolved g r)] /\
  (IsNotExist e = true ->
     statusLine out = Some StatusNotFound /\
     sent out = "404 page not found" ++ nl /\
     stderr out = []) /\
  (IsNotExist e = false ->
     rw out = genericError /\
     stderr out =
       [logLine w "fail to stat file %s: %s."
                [resolved g r; ErrorText e]]).
Proof.
  intros Hpass Hstat out. subst out.
  rewrite (serve_stat w g r Hpass), Hstat.
  destruct (IsNotExist e).
  - repeat split; discriminate.
  - repeat split; discriminate.
Qed.

Lemma serve_stat_failure_witness :
  let r := Demo.get "/vault/x" in
  let out := exec (serve Demo.world Demo.everything r) start in
  rw out = genericError /\
  stderr out =
    ["2020.01.02 03:04:05 fail to stat file /srv/site/vault/x: permission denied."
     ++ nl].
Proof.
  intros r out.
  destruct (serve_stat_failure Demo.world Demo.everything r Demo.eacces)
    as (_ & _ & H).
  - right. left. reflexivity.
  - reflexivity.
  - destruct (H eq_refl) as [H1 H2]. split; [exact H1 | exact H2].
Defined.

(** *** Invariants of a handler run *)

Lemma preserves_ret {A} (J : HState -> Prop) (a : A) : preserves J (ret a).
Proof. intros s H. exact H. Qed.

Lemma preserves_bind {A B} (J : HState -> Prop) (m : Handler A)
      (k : A -> Handler B) :
  preserves J m -> (forall a, preserves J (k a)) -> preserves J (bind m k).
Proof.
  intros Hm Hk s H. unfold bind.
  specialize (Hm s H). destruct (m s) as [a s']. exact (Hk a s' Hm).
Qed.

Lemma preserves_exec {A} (J : HState -> Prop) (m : Handler A) (s : HState) :
  preserves J m -> J s -> J (exec m s).
Proof. intros Hm H. exact (Hm s H). Qed.

Section StatFirst.
Variable q : string.
Let J := statFirstNo404 q.

Lemma J_Header : preserves J Header.
Proof. intros s H. exact H. Qed.

Lemma J_setHeader h : preserves J (setHeader h).
Proof. intros s H. exact H. Qed.

Lemma J_fsCall {A} op (a : A) : preserves J (fsCall op a).
Proof.
  intros s [[rest Hops] Hc]. split; [|exact Hc].
  exists (rest ++ [op])%list. simpl. now rewrite Hops.
Qed.

Lemma J_eprint line : preserves J (eprint line).
Proof. intros s H. exact H. Qed.

Lemma J_WriteHeader c : c <> StatusNotFound -> preserves J (WriteHeader c).
Proof.
  intros Hne s [Hops Hc]. split; [exact Hops|].
  unfold statusLine in *. simpl. unfold connWriteHeader.
  destruct (code (inner (rw s))) eqn:E; simpl; rewrite ?E; congruence.
Qed.

Lemma J_Write w b : preserves J (Write w b).
Proof.
  intros s [Hops Hc]. split; [exact Hops|].
  unfold statusLine in *. simpl. unfold connWriteHeader.
  destruct (code (inner (rw s))) eqn:E; simpl; rewrite ?E;
    [exact Hc | discriminate].
Qed.

Ltac keep :=
  repeat first
    [ apply preserves_ret
    | apply J_Header | apply J_setHeader | apply J_fsCall
    | apply J_eprint | apply J_Write
    | apply J_WriteHeader; discriminate
    | apply preserves_bind; [|intros ?]
    | match goal with
      | |- preserves _ (match ?x with _ => _ end) => destruct x
      end ].

Lemma J_internalServerError w : preserves J (internalServerError w).
Proof. unfold internalServerError, Error_, headerSet. keep. Qed.

Lemma J_log w format a : preserves J (log w format a).
Proof. apply J_eprint. Qed.

Lemma J_listFiles w r files : preserves J (listFiles w r files).
Proof. apply J_Write. Qed.

Lemma J_ServeContent w r name modtime content :
  preserves J (ServeContent w r name modtime content).
Proof.
  unfold ServeContent, setLastModified, writeNotModified, headerSet,
    headerDel.
  keep.
Qed.
End StatFirst.

(** C6: whatever the configuration, a request for the root path / goes
    on to the stat of the resolved path; it is answered 404 only when
    that stat reports that the path does not exist. *)
Theorem root_path_never_rejected (w : World) (g : Globals) (r : Request) :
  URLPath r = "/" ->
  let out := exec (serve w g r) start in
  (exists rest, ops out = OpStat (resolved g r) :: rest) /\
  (statusLine out = Some StatusNotFound ->
   exists e, Stat w (resolved g r) = Err e /\ IsNotExist e = true).
Proof.
  intros Hroot out. subst out.
  assert (Hpass : passes g r) by (left; exact Hroot).
  rewrite (serve_stat w g r Hpass).
  set (s0 := mkHState _ _ _).
  assert (H0 : statFirstNo404 (resolved g r) s0).
  { split; [exists []; reflexivity | discriminate]. }
  destruct (Stat w (resolved g r)) as [fi|e].
  - match goal with
    | |- context [exec ?m s0] =>
        assert (H : statFirstNo404 (resolved g r) (exec m s0))
    end.
    { apply preserves_exec; [|exact H0].
      repeat first
        [ apply preserves_ret
        | apply J_fsCall | apply J_log | apply J_internalServerError
        | apply J_listFiles | apply J_ServeContent
        | apply preserves_bind; [|intros ?]
        | match goal with
          | |- preserves _ (match ?x with _ => _ end) => destruct x
          end ]. }
    destruct H as [Hops Hc]. split; [exact Hops | intros E; contradiction].
  - destruct (IsNotExist e) eqn:He.
    + split; [eexists; reflexivity | intros _; eauto].
    + split; [eexists; reflexivity | discriminate].
Qed.

Lemma root_path_never_rejected_witness :
  let out := exec (serve Demo.world Demo.oneFile (Demo.get "/")) start in
  exists rest, ops out = OpStat "/srv/site" :: rest.
Proof.
  exact (proj1 (root_path_never_rejected Demo.world Demo.oneFile
                  (Demo.get "/") eq_refl)).
Defined.

(** *** The directory page *)

Lemma append_empty_r (s : string) : s ++ EmptyString = s.
Proof. induction s as [|c s IH]; simpl; [reflexivity | now rewrite IH]. Qed.

Lemma append_assoc (a b c : string) : (a ++ b) ++ c = a ++ (b ++ c).
Proof. induction a as [|x a IH]; simpl; [reflexivity | now rewrite IH]. Qed.

Lemma concat_empty_cons (x : string) (l : list string) :
  String.concat EmptyString (x :: l) = x ++ String.concat EmptyString l.
Proof. destruct l; simpl; [now rewrite append_empty_r | reflexivity]. Qed.

(** The loop of [listFiles] writes one line per entry, in order. *)
Lemma listFiles_loop (path : string) (files : list string) (buf : string) :
  fold_left
    (fun buf file =>
       buf ++ Sprintf anchor [Filepath.Join [path; file]; file])
    files buf
  = buf ++ String.concat EmptyString (map (entryLine path) files).
Proof.
  revert buf. induction files as [|f files IH]; intros buf.
  - simpl. now rewrite append_empty_r.
  - cbn [fold_left map]. rewrite IH, concat_empty_cons, append_assoc.
    reflexivity.
Qed.

Lemma listFiles_body (path : string) (files : list string) :
  Sprintf html
    [path; path;
     fold_left
       (fun buf file =>
          buf ++ Sprintf anchor [Filepath.Join [path; file]; file])
       files EmptyString]
  = page path files.
Proof. rewrite listFiles_loop. reflexivity. Qed.

Lemma exec_listFiles (w : World) (r : Request) (files : list string)
      (s : HState) :
  listFiles w r files s =
  (ConnWrite w,
   mkHState
     (mkResponseWriter (connWrite (inner (rw s)) (page (URLPath r) files))
                       (status (rw s)))
     (ops s) (stderr s)).
Proof.
  unfold listFiles. rewrite listFiles_body. reflexivity.
Qed.

(** C7: for every request path and every list of entries, [listFiles]
    sends an HTML document whose title is the request path, whose
    heading is "Index of " followed by the request path, and whose body
    holds, for each entry in order, the one line
    <a href=H>name</a><br> with H the request path joined with the
    entry name (H in double quotes); the status line is 200. *)
Theorem listFiles_renders_page (w : World) (r : Request)
        (files : list string) :
  let path := URLPath r in
  let out := exec (listFiles w r files) start in
  statusLine out = Some StatusOK /\
  sent out =
    "<!DOCTYPE html>" ++ nl ++
    "<html lang=" ++ dq ++ "en" ++ dq ++ ">" ++ nl ++
    "<head>" ++ nl ++
    "    <meta charset=" ++ dq ++ "UTF-8" ++ dq ++ ">" ++ nl ++
    "    <title>" ++ path ++ "</title>" ++ nl ++
    "</head>" ++ nl ++
    "<body>" ++ nl ++
    "<h1>Index of " ++ path ++ "</h1>" ++ nl ++
    "<hr>" ++ nl ++
    "<p>" ++ nl ++
    String.concat EmptyString
      (map (fun name =>
              "<a href=" ++ dq ++ Filepath.Join [path; name] ++ dq ++ ">"
              ++ name ++ "</a><br>" ++ nl)
           files) ++
    "</p>" ++ nl ++
    "</body>" ++ nl ++
    "</html>".
Proof.
  unfold exec. rewrite exec_listFiles. split; reflexivity.
Qed.

(** *** Directories *)

(** C2: in serve-everything mode, a request that resolves to a
    directory is answered 200 with a page of one entry per child the
    directory read returned, in that order, preceded by [..] exactly
    when the request path is not /; when the directory read fails the
    answer is the generic 500 and no page. *)
Theorem serve_everything_lists_children (w : World) (g : Globals)
        (r : Request) (fi : FileInfo) :
  file g = "*" ->
  Stat w (resolved g r) = Ok fi ->
  IsDir fi = true ->
  let out := exec (serve w g r) start in
  ops out = [OpStat (resolved g r); OpReadDir (resolved g r)] /\
  (forall fis,
     ReadDir w (resolved g r) = Ok fis ->
     statusLine out = Some StatusOK /\
     exists entries,
       sent out = page (URLPath r) entries /\
       (URLPath r = "/" -> entries = map Name fis) /\
       (URLPath r <> "/" -> entries = ".." :: map Name fis)) /\
  (forall e,
     ReadDir w (resolved g r) = Err e ->
     rw out = genericError).
Proof.
  intros Hfile Hstat Hdir out. subst out.
  assert (Hpass : passes g r) by (right; left; exact Hfile).
  rewrite (serve_stat w g r Hpass), Hstat, Hdir.
  apply String.eqb_eq in Hfile. rewrite Hfile.
  unfold exec, bind, ioutil_ReadDir, fsCall. cbv beta iota.
  destruct (ReadDir w (resolved g r)) as [fis|e].
  - unfold ret. rewrite exec_listFiles.
    split; [destruct (ConnWrite w); reflexivity|].
    split; [|discriminate].
    intros fis' E. injection E as <-.
    split; [destruct (ConnWrite w); reflexivity|].
    exists (children r fis).
    split; [destruct (ConnWrite w); reflexivity|].
    unfold children.
    destruct (String.eqb_spec (URLPath r) "/"); split; intros;
      try reflexivity; contradiction.
  - split; [reflexivity|]. split; [discriminate|].
    intros e' _. reflexivity.
Qed.

Lemma serve_everything_lists_children_witness :
  let out := exec (serve Demo.world Demo.everything (Demo.get "/sub/"))
                  start in
  statusLine out = Some StatusOK /\
  exists entries,
    sent out = page "/sub/" entries /\ entries = [".."; "a.txt"].
Proof.
  destruct (serve_everything_lists_children Demo.world Demo.everything
              (Demo.get "/sub/") (mkFileInfo "sub" true Demo.mtime)
              eq_refl eq_refl eq_refl) as (_ & H & _).
  destruct (H [mkFileInfo "a.txt" false Demo.mtime] eq_refl)
    as (Hc & entries & Hs & _ & He).
  split; [exact Hc|].
  exists entries. split; [exact Hs|].
  apply He. discriminate.
Defined.

(** C5: in single-file mode, a request that passes the access check and
    resolves to a directory is answered 200 with a page of exactly one
    entry, the served file's name; the directory is never read. *)
Theorem serve_single_file_lists_one (w : World) (g : Globals)
        (r : Request) (fi : FileInfo) :
  file g <> "*" ->
  passes g r ->
  Stat w (resolved g r) = Ok fi ->
  IsDir fi = true ->
  let out := exec (serve w g r) start in
  statusLine out = Some StatusOK /\
  sent out = page (URLPath r) [file g] /\
  ops out = [OpStat (resolved g r)].
Proof.
  intros Hfile Hpass Hstat Hdir out. subst out.
  rewrite (serve_stat w g r Hpass), Hstat, Hdir.
  apply String.eqb_neq in Hfile. rewrite Hfile.
  unfold exec, bind, ret. rewrite exec_listFiles.
  destruct (ConnWrite w); repeat split.
Qed.

Lemma serve_single_file_lists_one_witness :
  let out := exec (serve Demo.world Demo.oneFile (Demo.get "/")) start in
  ReadDir Demo.world "/srv/site" <> Ok [] /\
  sent out = page "/" ["index.html"] /\
  ops out = [OpStat "/srv/site"].
Proof.
  split; [discriminate|].
  refine (proj2 (serve_single_file_lists_one Demo.world Demo.oneFile
            (Demo.get "/") (mkFileInfo "site" true Demo.mtime)
            _ _ eq_refl eq_refl)).
  - discriminate.
  - left. reflexivity.
Defined.

(** *** Start-up *)

Lemma resolvePath_argument (w : World) (g : Globals) :
  resolvePath w g =
  let g' := setRoot g (argument w g) in
  match Stat w (argument w g) with
  | Err err => (Some err, g')
  | Ok fi =>
      if IsDir fi then
        (None, setFile (setRoot g' (fst (filepath_Abs w (argument w g))))
                       "*")
      else
        match filepath_Abs w (argument w g) with
        | (_, Some err) => (Some err, g')
        | (abs, None) =>
            (None,
             setFile (setRoot g' (Filepath.Dir abs)) (Filepath.Base abs))
        end
  end.
Proof.
  unfold resolvePath, argument.
  destruct g as [rt fl ni pt]. simpl root.
  destruct rt as [|c rt]; cbn [String.length Nat.eqb]; cbv zeta;
    unfold setRoot, setFile; simpl;
    match goal with |- context [Stat w ?a] => destruct (Stat w a) end;
    try reflexivity;
    destruct (IsDir _); try reflexivity;
    match goal with
    | |- context [filepath_Abs w ?a] => destruct (filepath_Abs w a)
    end; reflexivity.
Qed.

(** C3: [resolvePath] works on the working directory when the root
    argument is empty; a failing stat of the argument is returned as
    the error (and [main] exits with code 10); for a directory the
    globals become the absolute path of the argument and the
    serve-everything sentinel; for anything else they become the
    directory part and the base name of the absolute path. *)
Theorem resolvePath_settles_root_and_file (w : World) (g : Globals) :
  (forall wd,
     root g = EmptyString -> Getwd w = Ok wd ->
     resolvePath w g = resolvePath w (setRoot g wd)) /\
  (forall e,
     Stat w (argument w g) = Err e ->
     fst (resolvePath w g) = Some e /\ fst (main w g) = Exit 10) /\
  (forall fi abs,
     Stat w (argument w g) = Ok fi ->
     IsDir fi = true ->
     filepath_Abs w (argument w g) = (abs, None) ->
     resolvePath w g = (None, mkGlobals abs "*" (netIF g) (port g))) /\
  (forall fi abs,
     Stat w (argument w g) = Ok fi ->
     IsDir fi = false ->
     filepath_Abs w (argument w g) = (abs, None) ->
     resolvePath w g =
     (None, mkGlobals (Filepath.Dir abs) (Filepath.Base abs)
                      (netIF g) (port g))).
Proof.
  repeat split.
  - intros wd Hroot Hwd.
    rewrite !resolvePath_argument.
    assert (E : argument w (setRoot g wd) = argument w g).
    { unfold argument, os_Getwd. simpl root. rewrite Hroot, Hwd.
      destruct wd; reflexivity. }
    rewrite E. reflexivity.
  - rewrite resolvePath_argument, H. reflexivity.
  - unfold main. rewrite resolvePath_argument, H. reflexivity.
  - intros fi abs Hstat Hdir Habs.
    rewrite resolvePath_argument, Hstat, Hdir, Habs. reflexivity.
  - intros fi abs Hstat Hdir Habs.
    rewrite resolvePath_argument, Hstat, Hdir, Habs. reflexivity.
Qed.

Lemma resolvePath_settles_root_and_file_witness :
  let flags f := mkGlobals f EmptyString EmptyString 8000 in
  resolvePath Demo.world (flags EmptyString)
    = (None, mkGlobals "/srv/site" "*" EmptyString 8000) /\
  resolvePath Demo.world (flags "/srv/site/index.html")
    = (None, mkGlobals "/srv/site" "index.html" EmptyString 8000) /\
  fst (main Demo.world (flags "/nowhere")) = Exit 10.
Proof.
  intros flags.
  destruct (resolvePath_settles_root_and_file Demo.world
              (flags EmptyString)) as (_ & _ & Hdir & _).
  destruct (resolvePath_settles_root_and_file Demo.world
              (flags "/srv/site/index.html")) as (_ & _ & _ & Hfile).
  destruct (resolvePath_settles_root_and_file Demo.world
              (flags "/nowhere")) as (_ & Herr & _).
  split; [|split].
  - exact (Hdir (mkFileInfo "site" true Demo.mtime) "/srv/site"
                eq_refl eq_refl eq_refl).
  - exact (Hfile (mkFileInfo "index.html" false Demo.mtime)
                 "/srv/site/index.html" eq_refl eq_refl eq_refl).
  - exact (proj2 (Herr Demo.enoent eq_refl)).
Defined.

(** In the directory branch the error of [filepath.Abs] is assigned and
    never looked at: with a relative argument and no working directory
    [resolvePath] reports success and leaves the root empty. *)
Lemma resolvePath_directory_drops_abs_error (w : World) (g : Globals)
      (fi : FileInfo) (e : Error) :
  Stat w (argument w g) = Ok fi ->
  IsDir fi = true ->
  filepath_Abs w (argument w g) = (EmptyString, Some e) ->
  resolvePath w g = (None, mkGlobals EmptyString "*" (netIF g) (port g)).
Proof.
  intros Hstat Hdir Habs.
  rewrite resolvePath_argument, Hstat, Hdir, Habs. reflexivity.
Qed.

(** *** Regular files *)

Lemma serve_file (w : World) (g : Globals) (r : Request) (fi : FileInfo)
      (f : File) :
  passes g r ->
  Stat w (resolved g r) = Ok fi ->
  IsDir fi = false ->
  Open w (resolved g r) = Ok f ->
  exec (serve w g r) start =
  exec
    (bind (ServeContent w r "foo" (ModTime fi) f)
          (fun _ =>
             bind (Close (resolved g r) f)
                  (fun err =>
                     match err with
                     | Some err =>
                         log w "fail to close %s: %s."
                             [resolved g r; ErrorText err]
                     | None => ret tt
                     end)))
    (mkHState (rw start)
              [OpStat (resolved g r); OpOpen (resolved g r)] []).
Proof.
  intros Hpass Hstat Hdir Hopen.
  rewrite (serve_stat w g r Hpass), Hstat, Hdir.
  rewrite exec_bind. unfold os_Open, fsCall. cbn [fst snd].
  rewrite Hopen. reflexivity.
Qed.

Lemma serve_open_failure (w : World) (g : Globals) (r : Request)
      (fi : FileInfo) (e : Error) :
  passes g r ->
  Stat w (resolved g r) = Ok fi ->
  IsDir fi = false ->
  Open w (resolved g r) = Err e ->
  rw (exec (serve w g r) start) = genericError.
Proof.
  intros Hpass Hstat Hdir Hopen.
  rewrite (serve_stat w g r Hpass), Hstat, Hdir.
  rewrite exec_bind. unfold os_Open, fsCall. cbn [fst snd].
  rewrite Hopen. reflexivity.
Qed.

(** The log line of a failing [Close] leaves the response alone. *)
Lemma close_keeps_response (w : World) (q : string) (f : File)
      (s : HState) :
  rw (exec (bind (Close q f)
                 (fun err =>
                    match err with
                    | Some err =>
                        log w "fail to close %s: %s." [q; ErrorText err]
                    | None => ret tt
                    end)) s) = rw s.
Proof.
  unfold exec, bind, Close, fsCall. cbv beta iota.
  destruct (CloseErr f); reflexivity.
Qed.

(** C9 (as amended): for every GET or HEAD request that carries no
    [Range] header and no conditional header other than
    [If-Modified-Since] (the requests [Request] stands for), that passes
    the access check and resolves to a regular file which opens and whose
    modification time is neither the zero time nor the Unix epoch, an
    [If-Modified-Since] at or after the modification time (cut to the
    second) is answered 304 Not Modified without a body, and an earlier
    one 200, for GET with the whole content as the body. *)
Theorem file_conditional_get (w : World) (g : Globals) (r : Request)
        (fi : FileInfo) (f : File) (t : Z) :
  passes g r ->
  Stat w (resolved g r) = Ok fi ->
  IsDir fi = false ->
  Open w (resolved g r) = Ok f ->
  Method r = "GET" \/ Method r = "HEAD" ->
  isZeroTime (ModTime fi) = false ->
  IfModifiedSince r = Some t ->
  let out := exec (serve w g r) start in
  (truncateSecond (ModTime fi) <= t ->
   statusLine out = Some StatusNotModified /\ sent out = EmptyString) /\
  (t < truncateSecond (ModTime fi) ->
   statusLine out = Some StatusOK /\
   (Method r = "GET" -> sent out = Content f)).
Proof.
  intros Hpass Hstat Hdir Hopen Hmethod Hzero Hims out. subst out.
  rewrite (serve_file w g r fi f Hpass Hstat Hdir Hopen).
  unfold statusLine, sent.
  rewrite exec_bind, close_keeps_response.
  unfold ServeContent, setLastModified, checkIfModifiedSince.
  rewrite Hzero, Hims.
  destruct Hmethod as [Hm | Hm]; rewrite Hm;
    cbn [String.eqb Ascii.eqb negb andb Bool.eqb];
    (split; intros Ht;
     [ apply Z.leb_le in Ht | apply Z.leb_gt in Ht ];
     rewrite Ht; split; try reflexivity; discriminate).
Qed.

Lemma file_conditional_get_witness :
  let mtime := 1500000000 in
  statusLine (exec (serve Demo.world Demo.everything
                      (Demo.getSince "/index.html" mtime)) start)
    = Some StatusNotModified /\
  sent (exec (serve Demo.world Demo.everything
                (Demo.getSince "/index.html" (mtime - 1))) start)
    = "<html>hi</html>".
Proof.
  intros mtime. split.
  - refine (proj1 (proj1 (file_conditional_get Demo.world Demo.everything
              (Demo.getSince "/index.html" mtime)
              (mkFileInfo "index.html" false Demo.mtime)
              (mkFile "<html>hi</html>" None) mtime
              _ eq_refl eq_refl eq_refl _ eq_refl eq_refl) _)).
    + right. left. reflexivity.
    + left. reflexivity.
    + vm_compute. discriminate.
  - refine (proj2 (proj2 (file_conditional_get Demo.world Demo.everything
              (Demo.getSince "/index.html" (mtime - 1))
              (mkFileInfo "index.html" false Demo.mtime)
              (mkFile "<html>hi</html>" None) (mtime - 1)
              _ eq_refl eq_refl eq_refl _ eq_refl eq_refl) _) eq_refl).
    + right. left. reflexivity.
    + left. reflexivity.
    + vm_compute. reflexivity.
Defined.

(** The two guards of the content responder's check: a request with a
    method other than GET and HEAD, and a file dated at the Unix epoch,
    are sent whole whatever [If-Modified-Since] says. *)
Lemma post_is_never_304 :
  statusLine (exec (serve Demo.world Demo.everything
                      (mkRequest "POST" "/index.html" (Some 1500000000)
                                 "192.0.2.7:40000")) start)
  = Some StatusOK.
Proof. reflexivity. Qed.

Lemma epoch_file_is_never_304 :
  ModTime Demo.ancient = 0 /\
  statusLine (exec (serve Demo.world Demo.everything
                      (Demo.getSince "/ancient.txt" 0)) start)
  = Some StatusOK.
Proof. split; reflexivity. Qed.

(** C9, counterexample: two regular files for which a GET carrying the
    file's exact modification time in [If-Modified-Since] is not answered
    304.  [/srv/site/ancient.txt] opens and is dated at the Unix epoch:
    the content responder skips the check and sends it whole with 200.
    [/srv/site/locked.txt] cannot be opened: the answer is 500. *)
Lemma exact_time_is_not_always_304 :
  ~ honoursIfModifiedSince Demo.world Demo.everything
      (Demo.getSince "/ancient.txt" 0) /\
  ~ honoursIfModifiedSince Demo.world Demo.everything
      (Demo.getSince "/locked.txt" 1500000000).
Proof.
  split; intros H.
  - destruct (H Demo.ancient) as [H304 _].
    + right. left. reflexivity.
    + reflexivity.
    + reflexivity.
    + specialize (H304 eq_refl). vm_compute in H304. discriminate.
  - destruct (H (mkFileInfo "locked.txt" false Demo.mtime)) as [H304 _].
    + right. left. reflexivity.
    + reflexivity.
    + reflexivity.
    + specialize (H304 eq_refl). vm_compute in H304. discriminate.
Qed.

(** C8, the failing input: with [/srv/site] served whole, the request
    path [/../secret] passes the access check, resolves to
    [/srv/secret], which is not within the root, and the file there is
    stat-ed, opened and sent with status 200. *)
Theorem dotdot_request_leaves_root :
  let r := Demo.connect "/../secret" in
  let out := exec (serve Demo.world Demo.everything r) start in
  passes Demo.everything r /\
  resolved Demo.everything r = "/srv/secret" /\
  within (root Demo.everything) (resolved Demo.everything r) = false /\
  ops out = [OpStat "/srv/secret"; OpOpen "/srv/secret";
             OpClose "/srv/secret"] /\
  statusLine out = Some StatusOK /\
  sent out = "top secret" /\
  ~ confined Demo.world Demo.everything r.
Proof.
  intros r out.
  split; [right; left; reflexivity|].
  repeat (split; [reflexivity|]).
  intros H. unfold confined in H.
  apply Forall_inv in H. vm_compute in H. discriminate.
Qed.

(** *** The header map *)

Lemma Lookup_Del (h : HeaderMap) (k k' : string) :
  Lookup (Del h k) k' = if String.eqb k k' then None else Lookup h k'.
Proof.
  induction h as [|[a v] h IH]; simpl.
  - now destruct (String.eqb k k').
  - destruct (String.eqb_spec a k) as [->|Hak]; simpl.
    + rewrite IH. destruct (String.eqb_spec k k'); reflexivity.
    + rewrite IH.
      destruct (String.eqb_spec a k') as [->|]; [|reflexivity].
      destruct (String.eqb_spec k k'); congruence.
Qed.

Lemma Lookup_Set (h : HeaderMap) (k v k' : string) :
  Lookup (Set_ h k v) k' = if String.eqb k k' then Some v else Lookup h k'.
Proof.
  unfold Set_. simpl. rewrite Lookup_Del.
  destruct (String.eqb k k'); reflexivity.
Qed.

(** With the name [foo] the MIME table is never asked. *)
Lemma foo_has_no_extension (w : World) :
  TypeByExtension w (Filepath.Ext "foo") = EmptyString.
Proof. reflexivity. Qed.

Lemma serve_ignores_mime_table (w : World) (m : string -> string)
      (g : Globals) (r : Request) :
  serve (withMimeTypes w m) g r = serve w g r.
Proof. reflexivity. Qed.

Lemma exec_seq {A} (m : Handler A) (k : Handler unit) (s : HState) :
  exec (bind m (fun _ => k)) s = exec k (exec m s).
Proof. unfold exec, bind. now destruct (m s). Qed.

Lemma exec_Header {B} (k : HeaderMap -> Handler B) (s : HState) :
  exec (bind Header k) s = exec (k (headers s)) s.
Proof. reflexivity. Qed.

Lemma headers_WriteHeader (c : Z) (s : HState) :
  headers (exec (WriteHeader c) s) = headers s.
Proof.
  unfold headers, exec, WriteHeader, modifyRW, connWriteHeader. simpl.
  now destruct (code (inner (rw s))).
Qed.

Lemma headers_Write (w : World) (b : string) (s : HState) :
  headers (exec (Write w b) s) = headers s.
Proof.
  unfold headers, exec, Write, bind, modifyRW, ret, connWrite,
    connWriteHeader. simpl.
  now destruct (code (inner (rw s))).
Qed.

Section ContentType.
Variable x : option string.
Let J := hasContentType x.

Lemma CT_headerSet k v :
  k <> "Content-Type" -> preserves J (headerSet k v).
Proof.
  intros Hk s H. unfold J, hasContentType in *.
  change (Lookup (Set_ (headers s) k v) "Content-Type" = x).
  rewrite Lookup_Set. apply String.eqb_neq in Hk. now rewrite Hk.
Qed.

Lemma CT_headerDel k :
  k <> "Content-Type" -> preserves J (headerDel k).
Proof.
  intros Hk s H. unfold J, hasContentType in *.
  change (Lookup (Del (headers s) k) "Content-Type" = x).
  rewrite Lookup_Del. apply String.eqb_neq in Hk. now rewrite Hk.
Qed.

Lemma CT_Header : preserves J Header.
Proof. intros s H. exact H. Qed.

Lemma CT_WriteHeader c : preserves J (WriteHeader c).
Proof.
  intros s H. unfold J, hasContentType in *.
  change (snd (WriteHeader c s)) with (exec (WriteHeader c) s).
  now rewrite headers_WriteHeader.
Qed.

Lemma CT_Write w b : preserves J (Write w b).
Proof.
  intros s H. unfold J, hasContentType in *.
  change (snd (Write w b s)) with (exec (Write w b) s).
  now rewrite headers_Write.
Qed.
End ContentType.

Ltac keepCT :=
  repeat first
    [ apply preserves_ret
    | apply CT_headerSet; discriminate
    | apply CT_headerDel; discriminate
    | apply CT_Header | apply CT_WriteHeader | apply CT_Write
    | apply preserves_bind; [|intros ?]
    | match goal with
      | |- preserves _ (match ?c with _ => _ end) => destruct c
      end ].

(** The [Content-Type] a response named [foo] ends with: none on 304,
    the one the handler had set if any, the sniffed one otherwise. *)
Lemma ServeContent_foo_content_type (w : World) (r : Request)
      (modtime : Z) (f : File) (s : HState) :
  hasContentType
    match checkIfModifiedSince r modtime with
    | condFalse => None
    | _ =>
        match Lookup (headers s) "Content-Type" with
        | Some v => Some v
        | None =>
            Some (DetectContentType w
                    (substring 0 sniffLen (Content f)))
        end
    end
    (exec (ServeContent w r "foo" modtime f) s).
Proof.
  unfold ServeContent. rewrite foo_has_no_extension.
  cbn [String.eqb].
  rewrite exec_seq.
  assert (H1 : hasContentType (Lookup (headers s) "Content-Type")
                 (exec (setLastModified w modtime) s)).
  { apply preserves_exec; [|reflexivity].
    unfold setLastModified. keepCT. }
  set (s1 := exec (setLastModified w modtime) s) in *.
  unfold hasContentType in H1. rewrite <- H1. clearbody s1. clear H1 s.
  assert (Hsent :
    forall k : Handler unit,
      preserves
        (hasContentType
           match Lookup (headers s1) "Content-Type" with
           | Some v => Some v
           | None =>
               Some (DetectContentType w
                       (substring 0 sniffLen (Content f)))
           end) k ->
      hasContentType
        match Lookup (headers s1) "Content-Type" with
        | Some v => Some v
        | None =>
            Some (DetectContentType w (substring 0 sniffLen (Content f)))
        end
        (exec
           (bind Header (fun h =>
              bind match Lookup h "Content-Type" with
                   | Some _ => ret tt
                   | None =>
                       headerSet "Content-Type"
                         (DetectContentType w
                            (substring 0 sniffLen (Content f)))
                   end
                   (fun _ => k)))
           s1)).
  { intros k Hk. rewrite exec_Header, exec_seq.
    apply preserves_exec; [exact Hk|].
    destruct (Lookup (headers s1) "Content-Type") eqn:E.
    - exact E.
    - unfold hasContentType.
      change (Lookup (Set_ (headers s1) "Content-Type"
                        (DetectContentType w
                           (substring 0 sniffLen (Content f))))
                     "Content-Type" = Some (DetectContentType w
                           (substring 0 sniffLen (Content f)))).
      now rewrite Lookup_Set. }
  destruct (checkIfModifiedSince r modtime).
  - apply Hsent. keepCT.
  - apply Hsent. keepCT.
  - unfold writeNotModified. rewrite exec_seq.
    apply preserves_exec; [keepCT|].
    unfold hasContentType.
    change (Lookup (Del (headers s1) "Content-Type") "Content-Type"
            = None).
    now rewrite Lookup_Del.
Qed.

(** C10: a regular file is always handed to the content responder
    under the name [foo].  The response is the responder's for that
    name; it is the same whatever the MIME table maps extensions to;
    and its [Content-Type] is the one sniffed from the content (none on
    a 304), whatever the requested file is called. *)
Theorem file_content_type_ignores_name (w : World) (g : Globals)
        (r : Request) (fi : FileInfo) (f : File) :
  passes g r ->
  Stat w (resolved g r) = Ok fi ->
  IsDir fi = false ->
  Open w (resolved g r) = Ok f ->
  let out := exec (serve w g r) start in
  rw out = rw (exec (ServeContent w r "foo" (ModTime fi) f) start) /\
  (forall m, exec (serve (withMimeTypes w m) g r) start = out) /\
  hasContentType
    match checkIfModifiedSince r (ModTime fi) with
    | condFalse => None
    | _ => Some (DetectContentType w (substring 0 sniffLen (Content f)))
    end
    out.
Proof.
  intros Hpass Hstat Hdir Hopen out. subst out.
  split; [|split].
  - rewrite (serve_file w g r fi f Hpass Hstat Hdir Hopen).
    rewrite exec_bind, close_keeps_response.
    unfold ServeContent, setLastModified.
    destruct (isZeroTime (ModTime fi));
      destruct (checkIfModifiedSince r (ModTime fi));
      destruct (String.eqb (Method r) "HEAD") eqn:E;
      unfold exec, bind; cbn; rewrite ?E; reflexivity.
  - intros m. now rewrite serve_ignores_mime_table.
  - rewrite (serve_file w g r fi f Hpass Hstat Hdir Hopen).
    rewrite exec_bind.
    unfold hasContentType, headers. rewrite close_keeps_response.
    exact (ServeContent_foo_content_type w r (ModTime fi) f
             (mkHState (rw start)
                       [OpStat (resolved g r); OpOpen (resolved g r)] [])).
Qed.

Lemma file_content_type_ignores_name_witness :
  let out := exec (serve Demo.world Demo.everything
                     (Demo.get "/style.css")) start in
  MimeTypes Demo.world "css" = "text/css; charset=utf-8" /\
  hasContentType (Some "text/plain; charset=utf-8") out.
Proof.
  split; [reflexivity|].
  refine (proj2 (proj2 (file_content_type_ignores_name Demo.world
            Demo.everything (Demo.get "/style.css")
            (mkFileInfo "style.css" false Demo.mtime)
            (mkFile "body { margin: 0 }" None) _ eq_refl eq_refl eq_refl))).
  right. left. reflexivity.
Defined.

(** *** Where a request can lead *)

Lemma Split_nonempty (s : string) (sep : ascii) : Split s sep <> [].
Proof.
  destruct s as [|a s]; simpl; [discriminate|].
  destruct (Ascii.eqb a sep); [discriminate|].
  destruct (Split s sep); discriminate.
Qed.

Lemma Split_app (a b : string) :
  Split (a ++ String Separator b) Separator
  = (Split a Separator ++ Split b Separator)%list.
Proof.
  induction a as [|c a IH]; simpl.
  - reflexivity.
  - destruct (Ascii.eqb c Separator).
    + now rewrite IH.
    + rewrite IH.
      destruct (Split a Separator) as [|h t] eqn:E; [|reflexivity].
      now apply Split_nonempty in E.
Qed.

Lemma Split_one (c : string) :
  containsChar Separator c = false -> Split c Separator = [c].
Proof.
  induction c as [|a c IH]; simpl; [reflexivity|].
  intros H. apply orb_false_iff in H as [Ha Hc].
  rewrite Ha, (IH Hc). reflexivity.
Qed.

Lemma properElem_spec (c : string) :
  properElem c = true ->
  c <> EmptyString /\ c <> "." /\ c <> ".." /\
  containsChar Separator c = false.
Proof.
  unfold properElem. intros H.
  repeat (apply andb_true_iff in H as [H ?]).
  repeat split;
    try (apply String.eqb_neq; now apply negb_true_iff);
    now apply negb_true_iff.
Qed.

Lemma Split_Join (cs : list string) :
  forallb properElem cs = true -> cs <> [] ->
  Split (Strings.Join cs "/") Separator = cs.
Proof.
  induction cs as [|c cs IH]; [congruence|].
  intros H _. simpl in H. apply andb_true_iff in H as [Hc Hcs].
  apply properElem_spec in Hc as (_ & _ & _ & Hc).
  destruct cs as [|d cs].
  - simpl. now apply Split_one.
  - change (Strings.Join (c :: d :: cs) "/")
      with (c ++ String Separator (Strings.Join (d :: cs) "/")).
    rewrite Split_app, (Split_one c Hc), IH; [reflexivity|exact Hcs|].
    discriminate.
Qed.

(** The scan of [Clean] over the elements of a clean absolute path
    writes them all. *)
Lemma cleanStep_proper (out : list string) (c : string) :
  properElem c = true -> Filepath.cleanStep true out c = c :: out.
Proof.
  intros H. apply properElem_spec in H as (H1 & H2 & H3 & _).
  unfold Filepath.cleanStep.
  apply String.eqb_neq in H1, H2, H3. now rewrite H1, H2, H3.
Qed.

Lemma scan_proper (cs out : list string) :
  forallb properElem cs = true ->
  fold_left (Filepath.cleanStep true) cs out = (rev cs ++ out)%list.
Proof.
  revert out. induction cs as [|c cs IH]; intros out H; [reflexivity|].
  simpl in H. apply andb_true_iff in H as [Hc Hcs].
  simpl. rewrite (cleanStep_proper out c Hc), (IH _ Hcs).
  now rewrite <- app_assoc.
Qed.

(** Without a [..] element the scan only ever adds to what is written. *)
Lemma scan_noDotDot (cs out : list string) :
  forallb (fun c => negb (String.eqb c "..")) cs = true ->
  exists more, fold_left (Filepath.cleanStep true) cs out
               = (more ++ out)%list.
Proof.
  revert out. induction cs as [|c cs IH]; intros out H.
  - exists []. reflexivity.
  - simpl in H. apply andb_true_iff in H as [Hc Hcs].
    apply negb_true_iff in Hc.
    simpl. unfold Filepath.cleanStep at 2. rewrite Hc.
    destruct (String.eqb c EmptyString); [now apply IH|].
    destruct (String.eqb c "."); [now apply IH|].
    destruct (IH (c :: out) Hcs) as [more E].
    exists (more ++ [c])%list. rewrite E, <- app_assoc. reflexivity.
Qed.

Lemma Join_app (cs more : list string) :
  cs <> [] -> more <> [] ->
  Strings.Join (cs ++ more) "/"
  = Strings.Join cs "/" ++ "/" ++ Strings.Join more "/".
Proof.
  induction cs as [|c cs IH]; [congruence|].
  intros _ Hm. destruct cs as [|d cs].
  - destruct more; [congruence|]. reflexivity.
  - change (Strings.Join ((c :: d :: cs) ++ more) "/")
      with (c ++ "/" ++ Strings.Join ((d :: cs) ++ more) "/").
    rewrite IH; [|discriminate|exact Hm].
    change (Strings.Join (c :: d :: cs) "/")
      with (c ++ "/" ++ Strings.Join (d :: cs) "/").
    now rewrite !append_assoc.
Qed.

Lemma HasPrefix_append (a b : string) : HasPrefix (a ++ b) a = true.
Proof.
  induction a as [|c a IH]; simpl; [reflexivity|].
  now rewrite Ascii.eqb_refl.
Qed.

(** What [filepath.Join] makes of a clean absolute root and a request
    path: the scan of the request path on top of the root's elements. *)
Lemma Join_absolute (cs : list string) (path : string) :
  forallb properElem cs = true ->
  Filepath.Join [absolute cs; path]
  = "/" ++ Strings.Join
             (rev (fold_left (Filepath.cleanStep true)
                             (Split path Separator) (rev cs))) "/".
Proof.
  intros Hcs. unfold absolute.
  change (Filepath.Join ["/" ++ Strings.Join cs "/"; path])
    with (Filepath.Clean
            (String Separator (Strings.Join cs "/" ++ String Separator path))).
  unfold Filepath.Clean. rewrite Ascii.eqb_refl.
  cbn [Split]. rewrite Ascii.eqb_refl, Split_app.
  cbn [fold_left]. rewrite fold_left_app.
  change (Filepath.cleanStep true [] EmptyString) with (@nil string).
  destruct cs as [|c cs].
  - reflexivity.
  - rewrite Split_Join by (exact Hcs || discriminate).
    rewrite (scan_proper (c :: cs) [] Hcs).
    now rewrite app_nil_r.
Qed.

(** With a clean absolute root, a request path without [..] elements
    resolves to the root or below it. *)
Lemma noDotDot_within_root (cs : list string) (path : string) :
  forallb properElem cs = true ->
  noDotDot path = true ->
  within (absolute cs) (Filepath.Join [absolute cs; path]) = true.
Proof.
  intros Hcs Hp. rewrite (Join_absolute cs path Hcs).
  destruct (scan_noDotDot (Split path Separator) (rev cs) Hp) as [more E].
  rewrite E, rev_app_distr, rev_involutive.
  unfold within, absolute.
  destruct (rev more) as [|m ms] eqn:Em.
  - rewrite app_nil_r, String.eqb_refl. reflexivity.
  - destruct cs as [|c cs].
    + simpl app. cbn [Strings.Join]. rewrite orb_true_iff. right.
      reflexivity.
    + rewrite Join_app by discriminate.
      apply orb_true_iff. left. apply orb_true_iff. right.
      change ("/" ++ Strings.Join (c :: cs) "/" ++ "/"
                  ++ Strings.Join (m :: ms) "/")
        with (("/" ++ Strings.Join (c :: cs) "/") ++ "/"
                  ++ Strings.Join (m :: ms) "/").
      rewrite <- append_assoc. apply HasPrefix_append.
Qed.

Lemma cutset_separator (a : ascii) :
  containsChar a "/" = Ascii.eqb a Separator.
Proof. cbn [containsChar]. rewrite orb_false_r. apply Ascii.eqb_sym. Qed.

Lemma Split_TrimLeft (p : string) :
  exists k, Split p Separator
            = (repeat EmptyString k ++ Split (TrimLeft p "/") Separator)%list.
Proof.
  induction p as [|a p [k IH]].
  - exists 0%nat. reflexivity.
  - cbn [TrimLeft]. rewrite cutset_separator.
    destruct (Ascii.eqb a Separator) eqn:E.
    + exists (S k). cbn [Split]. rewrite E, IH. reflexivity.
    + exists 0%nat. reflexivity.
Qed.

Lemma Split_TrimRight (q : string) :
  exists k, Split q Separator
            = (Split (TrimRight q "/") Separator ++ repeat EmptyString k)%list.
Proof.
  induction q as [|a q [k IH]].
  - exists 0%nat. reflexivity.
  - cbn [TrimRight Split]. rewrite cutset_separator.
    destruct (Ascii.eqb a Separator) eqn:E.
    + destruct (TrimRight q "/") as [|b t] eqn:Et.
      * exists (S k). rewrite IH. reflexivity.
      * exists k. cbn [Split]. rewrite E, IH. reflexivity.
    + exists k. rewrite IH.
      assert (Hs : Split (match TrimRight q "/" with
                          | EmptyString => String a EmptyString
                          | String _ _ => String a (TrimRight q "/")
                          end) Separator
                   = match Split (TrimRight q "/") Separator with
                     | h :: t => String a h :: t
                     | [] => [String a EmptyString]
                     end).
      { destruct (TrimRight q "/"); cbn [Split]; rewrite E; reflexivity. }
      destruct (TrimRight q "/") as [|b t] eqn:Et.
      * cbn [Split]. rewrite E. reflexivity.
      * rewrite Hs.
        destruct (Split (String b t) Separator) as [|h tl] eqn:Es;
          [now apply Split_nonempty in Es | reflexivity].
Qed.

Lemma forallb_repeat_empty (k : nat) :
  forallb (fun c => negb (String.eqb c "..")) (repeat EmptyString k) = true.
Proof. induction k; simpl; auto. Qed.

(** A path that trims to a proper element has no [..] element. *)
Lemma Trim_noDotDot (p f : string) :
  Trim p "/" = f -> properElem f = true -> noDotDot p = true.
Proof.
  intros Ht Hf. unfold noDotDot, Trim in *.
  destruct (Split_TrimLeft p) as [a Ea].
  destruct (Split_TrimRight (TrimLeft p "/")) as [b Eb].
  rewrite Ea, Eb, Ht.
  apply properElem_spec in Hf as (_ & _ & Hdd & Hsep).
  rewrite (Split_one f Hsep), !forallb_app, !forallb_repeat_empty.
  simpl. apply String.eqb_neq in Hdd. now rewrite Hdd.
Qed.

(** In single-file mode, with a clean absolute root and a proper file
    name, every request the access check lets through resolves to the
    root or below it. *)
Lemma single_file_within_root (cs : list string) (g : Globals)
      (r : Request) :
  forallb properElem cs = true ->
  root g = absolute cs ->
  properElem (file g) = true ->
  file g <> "*" ->
  passes g r ->
  within (root g) (resolved g r) = true.
Proof.
  intros Hcs Hroot Hfile Hmode Hpass. unfold resolved. rewrite Hroot.
  apply noDotDot_within_root; [exact Hcs|].
  destruct Hpass as [H | [H | H]].
  - now rewrite H.
  - contradiction.
  - exact (Trim_noDotDot _ _ H Hfile).
Qed.

(** What the server's request multiplexer lets through for methods other
    than CONNECT, a path without [..] elements, stays under the root in
    serve-everything mode as well. *)
Lemma clean_request_within_root (cs : list string) (g : Globals)
      (r : Request) :
  forallb properElem cs = true ->
  root g = absolute cs ->
  noDotDot (URLPath r) = true ->
  within (root g) (resolved g r) = true.
Proof.
  intros Hcs Hroot Hp. unfold resolved. rewrite Hroot.
  now apply noDotDot_within_root.
Qed.

(** *** What a run leaves on the record *)

Section Quiet.
Variables (l : list FsOp) (e : list string).
Let Q (s : HState) : Prop := ops s = l /\ stderr s = e.

Lemma Q_modifyRW f : preserves Q (modifyRW f).
Proof. intros s H. exact H. Qed.

Lemma Q_Header : preserves Q Header.
Proof. intros s H. exact H. Qed.

Ltac quiet :=
  repeat first
    [ apply preserves_ret
    | apply Q_modifyRW | apply Q_Header
    | apply preserves_bind; [|intros ?]
    | match goal with
      | |- preserves _ (match ?x with _ => _ end) => destruct x
      end ].

Lemma Q_Error w error c : preserves Q (Error_ w error c).
Proof.
  unfold Error_, headerSet, setHeader, WriteHeader, Write. quiet.
Qed.

Lemma Q_listFiles w r files : preserves Q (listFiles w r files).
Proof. unfold listFiles, Write. quiet. Qed.

Lemma Q_ServeContent w r name modtime content :
  preserves Q (ServeContent w r name modtime content).
Proof.
  unfold ServeContent, setLastModified, writeNotModified, headerSet,
    headerDel, setHeader, WriteHeader, Write.
  quiet.
Qed.
End Quiet.

(** The content responder makes no file-system call and logs nothing. *)
Lemma ServeContent_quiet (w : World) (r : Request) (name : string)
      (modtime : Z) (content : File) (s : HState) :
  ops (exec (ServeContent w r name modtime content) s) = ops s /\
  stderr (exec (ServeContent w r name modtime content) s) = stderr s.
Proof.
  exact (Q_ServeContent (ops s) (stderr s) w r name modtime content s
           (conj eq_refl eq_refl)).
Qed.

(** X1: a regular file that cannot be opened is answered with the generic
    500; the text of the error goes to the log only, and the handler has
    stat-ed and tried to open the resolved path and nothing else. *)
Theorem serve_open_failure_is_500 (w : World) (g : Globals) (r : Request)
        (fi : FileInfo) (e : Error) :
  passes g r ->
  Stat w (resolved g r) = Ok fi ->
  IsDir fi = false ->
  Open w (resolved g r) = Err e ->
  let out := exec (serve w g r) start in
  rw out = genericError /\
  ops out = [OpStat (resolved g r); OpOpen (resolved g r)] /\
  stderr out =
    [logLine w "fail to open file %s: %s." [resolved g r; ErrorText e]].
Proof.
  intros Hpass Hstat Hdir Hopen out. subst out.
  rewrite (serve_stat w g r Hpass), Hstat, Hdir.
  rewrite exec_bind. unfold os_Open, fsCall. cbn [fst snd].
  rewrite Hopen. repeat split.
Qed.

Lemma serve_open_failure_is_500_witness :
  let out := exec (serve Demo.world Demo.everything
                     (Demo.get "/locked.txt")) start in
  rw out = genericError /\
  stderr out =
    ["2020.01.02 03:04:05 fail to open file /srv/site/locked.txt: permission denied."
     ++ nl].
Proof.
  destruct (serve_open_failure_is_500 Demo.world Demo.everything
              (Demo.get "/locked.txt")
              (mkFileInfo "locked.txt" false Demo.mtime) Demo.eacces)
    as (H1 & _ & H3); try reflexivity.
  - right. left. reflexivity.
  - split; [exact H1 | exact H3].
Defined.

(** X2: a file that opens is closed again, after the content responder
    has run; a failing close adds one log line and changes nothing of the
    response. *)
Theorem serve_closes_what_it_opens (w : World) (g : Globals) (r : Request)
        (fi : FileInfo) (f : File) :
  passes g r ->
  Stat w (resolved g r) = Ok fi ->
  IsDir fi = false ->
  Open w (resolved g r) = Ok f ->
  let out := exec (serve w g r) start in
  ops out = [OpStat (resolved g r); OpOpen (resolved g r);
             OpClose (resolved g r)] /\
  stderr out =
    match CloseErr f with
    | Some e =>
        [logLine w "fail to close %s: %s." [resolved g r; ErrorText e]]
    | None => []
    end /\
  rw out =
    rw (exec (ServeContent w r "foo" (ModTime fi) f)
             (mkHState (rw start)
                       [OpStat (resolved g r); OpOpen (resolved g r)] [])).
Proof.
  intros Hpass Hstat Hdir Hopen out. subst out.
  rewrite (serve_file w g r fi f Hpass Hstat Hdir Hopen).
  rewrite exec_bind.
  set (s1 := mkHState _ _ _).
  destruct (ServeContent_quiet w r "foo" (ModTime fi) f s1) as [Ho He].
  change (snd (ServeContent w r "foo" (ModTime fi) f s1))
    with (exec (ServeContent w r "foo" (ModTime fi) f) s1).
  split; [|split].
  - unfold exec at 1, bind, Close, fsCall. cbv beta iota.
    destruct (CloseErr f); cbn [snd ops log eprint]; rewrite Ho; reflexivity.
  - unfold exec at 1, bind, Close, fsCall. cbv beta iota.
    destruct (CloseErr f); cbn [snd stderr log eprint]; rewrite He;
      reflexivity.
  - apply close_keeps_response.
Qed.

Lemma serve_closes_what_it_opens_witness :
  let out := exec (serve Edge.flaky Demo.everything
                     (Demo.get "/index.html")) start in
  ops out = [OpStat "/srv/site/index.html"; OpOpen "/srv/site/index.html";
             OpClose "/srv/site/index.html"] /\
  stderr out =
    ["2020.01.02 03:04:05 fail to close /srv/site/index.html: input/output error."
     ++ nl].
Proof.
  destruct (serve_closes_what_it_opens Edge.flaky Demo.everything
              (Demo.get "/index.html")
              (mkFileInfo "index.html" false Demo.mtime)
              (mkFile "<html>hi</html>" (Some Edge.eio)))
    as (H1 & H2 & _); try reflexivity.
  - right. left. reflexivity.
  - split; [exact H1 | exact H2].
Defined.

Lemma serve_directory (w : World) (g : Globals) (r : Request)
      (fi : FileInfo) (files : list string) :
  passes g r ->
  Stat w (resolved g r) = Ok fi ->
  IsDir fi = true ->
  (file g <> "*" /\ files = [file g]) \/
  (file g = "*" /\
   exists fis, ReadDir w (resolved g r) = Ok fis /\ files = children r fis) ->
  let out := exec (serve w g r) start in
  rw out = mkResponseWriter (connWrite newConn (page (URLPath r) files)) 200 /\
  ops out = (OpStat (resolved g r) ::
             if String.eqb (file g) "*" then [OpReadDir (resolved g r)]
             else []) /\
  stderr out =
    match ConnWrite w with
    | Some e =>
        [logLine w "fail to list files %s: %s." [resolved g r; ErrorText e]]
    | None => []
    end.
Proof.
  intros Hpass Hstat Hdir Hfiles out. subst out.
  rewrite (serve_stat w g r Hpass), Hstat, Hdir.
  destruct Hfiles as [[Hmode ->] | [Hmode (fis & Hread & ->)]].
  - apply String.eqb_neq in Hmode. rewrite Hmode.
    unfold exec, bind, ret. rewrite exec_listFiles.
    destruct (ConnWrite w); repeat split.
  - apply String.eqb_eq in Hmode. rewrite Hmode.
    unfold exec, bind, ioutil_ReadDir, fsCall. cbv beta iota.
    rewrite Hread. unfold ret. rewrite exec_listFiles.
    destruct (ConnWrite w); repeat split.
Qed.

(** X3: what the directory branch logs.  A failing directory read is
    answered 500 and leaves no line on standard error; a page that could
    not be written leaves exactly one line with the error text, and the
    status stays 200. *)
Theorem serve_directory_log (w : World) (g : Globals) (r : Request)
        (fi : FileInfo) :
  passes g r ->
  Stat w (resolved g r) = Ok fi ->
  IsDir fi = true ->
  let out := exec (serve w g r) start in
  (forall e,
     file g = "*" -> ReadDir w (resolved g r) = Err e ->
     statusLine out = Some StatusInternalServerError /\ stderr out = []) /\
  (file g <> "*" \/ (exists fis, ReadDir w (resolved g r) = Ok fis) ->
   statusLine out = Some StatusOK /\
   stderr out =
     match ConnWrite w with
     | Some e =>
         [logLine w "fail to list files %s: %s."
                  [resolved g r; ErrorText e]]
     | None => []
     end).
Proof.
  intros Hpass Hstat Hdir out. split.
  - intros e Hmode Hread. subst out.
    rewrite (serve_stat w g r Hpass), Hstat, Hdir.
    apply String.eqb_eq in Hmode. rewrite Hmode.
    unfold exec, bind, ioutil_ReadDir, fsCall. cbv beta iota.
    rewrite Hread. split; reflexivity.
  - intros H.
    assert (Hfiles :
      exists files,
        (file g <> "*" /\ files = [file g]) \/
        (file g = "*" /\
         exists fis, ReadDir w (resolved g r) = Ok fis /\
                     files = children r fis)).
    { destruct (String.eqb_spec (file g) "*") as [Hm|Hm].
      - destruct H as [H | [fis Hread]]; [contradiction|].
        exists (children r fis). right. eauto.
      - exists [file g]. left. auto. }
    destruct Hfiles as [files Hfiles].
    destruct (serve_directory w g r fi files Hpass Hstat Hdir Hfiles)
      as (Hrw & _ & Herr).
    subst out. split; [|exact Herr].
    unfold statusLine. rewrite Hrw. reflexivity.
Qed.

Lemma serve_directory_log_witness :
  (let out := exec (serve Demo.world Demo.everything (Demo.get "/sealed"))
                   start in
   statusLine out = Some StatusInternalServerError /\ stderr out = []) /\
  (let out := exec (serve Edge.flaky Demo.oneFile (Demo.get "/")) start in
   statusLine out = Some StatusOK /\
   stderr out =
     ["2020.01.02 03:04:05 fail to list files /srv/site: broken pipe."
      ++ nl]).
Proof.
  split.
  - refine (proj1 (serve_directory_log Demo.world Demo.everything
              (Demo.get "/sealed") (mkFileInfo "sealed" true Demo.mtime)
              _ eq_refl eq_refl) Demo.eacces eq_refl eq_refl).
    right. left. reflexivity.
  - refine (proj2 (serve_directory_log Edge.flaky Demo.oneFile
              (Demo.get "/") (mkFileInfo "site" true Demo.mtime)
              _ eq_refl eq_refl) _).
    + left. reflexivity.
    + left. discriminate.
Defined.

Lemma serve_ops_cases (w : World) (g : Globals) (r : Request) :
  let q := resolved g r in
  let out := exec (serve w g r) start in
  (rejected g r /\ ops out = []) \/
  (passes g r /\
   exists rest,
     ops out = OpStat q :: rest /\
     (rest = [] \/ rest = [OpReadDir q] \/ rest = [OpOpen q] \/
      rest = [OpOpen q; OpClose q])).
Proof.
  intros q out. subst q out.
  destruct (passes_or_rejected g r) as [Hpass | Hrej].
  - right. split; [exact Hpass|].
    destruct (Stat w (resolved g r)) as [fi|e] eqn:Hstat.
    + destruct (IsDir fi) eqn:Hdir.
      * destruct (String.eqb_spec (file g) "*") as [Hm|Hm].
        -- destruct (ReadDir w (resolved g r)) as [fis|e] eqn:Hread.
           ++ destruct (serve_directory w g r fi (children r fis)
                          Hpass Hstat Hdir) as (_ & Ho & _).
              { right. eauto. }
              rewrite Ho. apply String.eqb_eq in Hm. rewrite Hm. eauto.
           ++ rewrite (serve_stat w g r Hpass), Hstat, Hdir.
              apply String.eqb_eq in Hm. rewrite Hm.
              unfold exec, bind, ioutil_ReadDir, fsCall. cbv beta iota.
              rewrite Hread. cbn. eauto 6.
        -- destruct (serve_directory w g r fi [file g] Hpass Hstat Hdir)
             as (_ & Ho & _).
           { left. auto. }
           rewrite Ho. apply String.eqb_neq in Hm. rewrite Hm. eauto.
      * destruct (Open w (resolved g r)) as [f|e] eqn:Hopen.
        -- rewrite (serve_file w g r fi f Hpass Hstat Hdir Hopen).
           rewrite exec_bind.
           set (s1 := mkHState _ _ _).
           destruct (ServeContent_quiet w r "foo" (ModTime fi) f s1)
             as [Ho _].
           change (snd (ServeContent w r "foo" (ModTime fi) f s1))
             with (exec (ServeContent w r "foo" (ModTime fi) f) s1).
           unfold exec at 1, bind, Close, fsCall. cbv beta iota.
           destruct (CloseErr f); cbn [snd ops log eprint]; rewrite Ho;
             cbn; eauto 7.
        -- rewrite (serve_stat w g r Hpass), Hstat, Hdir.
           rewrite exec_bind. unfold os_Open, fsCall. cbn [fst snd].
           rewrite Hopen. cbn. eauto 6.
    + rewrite (serve_stat w g r Hpass), Hstat.
      destruct (IsNotExist e); cbn; eauto.
  - left. split; [exact Hrej|]. now rewrite (serve_rejected w g r Hrej).
Qed.

(** X4: whatever the request and the world, the file-system calls of one
    run of [serve] all name the resolved path and come in one of five
    shapes: none, a stat, a stat and a directory read, a stat and a
    failed open, or a stat, an open and a close. *)
Theorem serve_ops_shape (w : World) (g : Globals) (r : Request) :
  opsShape (resolved g r) (ops (exec (serve w g r) start)).
Proof.
  destruct (serve_ops_cases w g r)
    as [[_ H] | [_ (rest & H & [-> | [-> | [-> | ->]]])]];
    rewrite H; constructor.
Qed.

(** *** The status of a response *)

Lemma ServeContent_fresh (w : World) (r : Request) (name : string)
      (modtime : Z) (f : File) (l : list FsOp) (e : list string) :
  rw (exec (ServeContent w r name modtime f) (mkHState (rw start) l e))
  = rw (exec (ServeContent w r name modtime f) start).
Proof.
  unfold ServeContent, setLastModified.
  destruct (isZeroTime modtime);
    destruct (checkIfModifiedSince r modtime);
    destruct (TypeByExtension w (Filepath.Ext name)) eqn:Et;
    destruct (String.eqb (Method r) "HEAD") eqn:E;
    unfold exec, bind; cbn; rewrite ?E; reflexivity.
Qed.

Lemma ServeContent_fresh_status (w : World) (r : Request) (name : string)
      (modtime : Z) (f : File) :
  let out := exec (ServeContent w r name modtime f) start in
  (statusLine out = Some StatusOK /\ status (rw out) = StatusOK) \/
  (statusLine out = Some StatusNotModified /\
   status (rw out) = StatusNotModified).
Proof.
  unfold ServeContent, setLastModified.
  destruct (isZeroTime modtime);
    destruct (checkIfModifiedSince r modtime);
    destruct (TypeByExtension w (Filepath.Ext name)) eqn:Et;
    destruct (String.eqb (Method r) "HEAD") eqn:E;
    unfold exec, bind, statusLine; cbn; rewrite ?E; cbn; auto.
Qed.

(** The four responses [serve] can give. *)
Lemma serve_response_cases (w : World) (g : Globals) (r : Request) :
  let out := exec (serve w g r) start in
  rw out = rw (exec (NotFound w r) start) \/
  rw out = genericError \/
  (exists files,
     rw out = mkResponseWriter
                (connWrite newConn (page (URLPath r) files)) 200) \/
  (exists fi f,
     rw out = rw (exec (ServeContent w r "foo" (ModTime fi) f) start)).
Proof.
  intros out. subst out.
  destruct (passes_or_rejected g r) as [Hpass | Hrej].
  - destruct (Stat w (resolved g r)) as [fi|e] eqn:Hstat.
    + destruct (IsDir fi) eqn:Hdir.
      * destruct (String.eqb_spec (file g) "*") as [Hm|Hm].
        -- destruct (ReadDir w (resolved g r)) as [fis|e] eqn:Hread.
           ++ destruct (serve_directory w g r fi (children r fis)
                          Hpass Hstat Hdir) as (Hrw & _).
              { right. eauto. }
              right. right. left. eauto.
           ++ right. left.
              rewrite (serve_stat w g r Hpass), Hstat, Hdir.
              apply String.eqb_eq in Hm. rewrite Hm.
              unfold exec, bind, ioutil_ReadDir, fsCall. cbv beta iota.
              rewrite Hread. reflexivity.
        -- destruct (serve_directory w g r fi [file g] Hpass Hstat Hdir)
             as (Hrw & _).
           { left. auto. }
           right. right. left. eauto.
      * destruct (Open w (resolved g r)) as [f|e] eqn:Hopen.
        -- right. right. right. exists fi, f.
           rewrite (serve_file w g r fi f Hpass Hstat Hdir Hopen).
           rewrite exec_bind, close_keeps_response.
           apply ServeContent_fresh.
        -- right. left.
           exact (serve_open_failure w g r fi e Hpass Hstat Hdir Hopen).
    + rewrite (serve_stat w g r Hpass), Hstat.
      destruct (IsNotExist e); [left | right; left]; reflexivity.
  - left. now rewrite (serve_rejected w g r Hrej).
Qed.


(** X8: [serve] looks at the path only, until it hands an opened file to
    the content responder.  Two requests for the same path get the same
    run (response, file-system calls and log) whatever their methods,
    headers and senders, unless the path resolves to a file that opens. *)
Theorem serve_reads_only_the_path (w : World) (g : Globals)
        (r r' : Request) :
  URLPath r = URLPath r' ->
  (forall fi f,
     Stat w (resolved g r) = Ok fi -> IsDir fi = false ->
     Open w (resolved g r) <> Ok f) ->
  exec (serve w g r) start = exec (serve w g r') start.
Proof.
  intros Hpath Hnofile.
  assert (Hres : resolved g r' = resolved g r)
    by (unfold resolved; now rewrite Hpath).
  destruct (passes_or_rejected g r) as [Hpass | Hrej].
  - assert (Hpass' : passes g r')
      by (unfold passes in *; now rewrite <- Hpath).
    rewrite (serve_stat w g r Hpass), (serve_stat w g r' Hpass'), Hres.
    destruct (Stat w (resolved g r)) as [fi|e] eqn:Hstat; [|reflexivity].
    destruct (IsDir fi) eqn:Hdir.
    + unfold children. rewrite <- Hpath.
      destruct (String.eqb (file g) "*").
      * unfold exec, bind, ioutil_ReadDir, fsCall. cbv beta iota.
        destruct (ReadDir w (resolved g r)); [|reflexivity].
        unfold ret. rewrite !exec_listFiles, <- Hpath. reflexivity.
      * unfold exec, bind, ret. rewrite !exec_listFiles, <- Hpath.
        reflexivity.
    + rewrite !exec_bind. unfold os_Open, fsCall. cbn [fst snd].
      destruct (Open w (resolved g r)) as [f|e] eqn:Hopen; [|reflexivity].
      exfalso. exact (Hnofile fi f eq_refl Hdir eq_refl).
  - assert (Hrej' : rejected g r')
      by (unfold rejected in *; now rewrite <- Hpath).
    now rewrite (serve_rejected w g r Hrej), (serve_rejected w g r' Hrej').
Qed.

Lemma serve_reads_only_the_path_witness :
  exec (serve Demo.world Demo.everything (Demo.get "/sub/")) start
  = exec (serve Demo.world Demo.everything
            (mkRequest "DELETE" "/sub/" (Some 1500000000) "[::1]:9"))
         start.
Proof.
  apply (serve_reads_only_the_path Demo.world Demo.everything
           (Demo.get "/sub/")
           (mkRequest "DELETE" "/sub/" (Some 1500000000) "[::1]:9")
           eq_refl).
  intros fi f Hstat Hdir.
  vm_compute in Hstat. injection Hstat as <-. discriminate.
Defined.

(** *** Which paths single-file mode accepts *)

Lemma TrimLeft_slashes (p : string) :
  exists a, p = slashes a ++ TrimLeft p "/".
Proof.
  induction p as [|c p [a IH]].
  - exists 0%nat. reflexivity.
  - cbn [TrimLeft]. rewrite cutset_separator.
    destruct (Ascii.eqb_spec c Separator) as [->|Hc].
    + exists (S a). cbn [slashes append]. f_equal. exact IH.
    + exists 0%nat. reflexivity.
Qed.

Lemma TrimRight_step (c : ascii) (q : string) :
  TrimRight (String c q) "/" =
  match TrimRight q "/" with
  | EmptyString =>
      if Ascii.eqb c Separator then EmptyString else String c EmptyString
  | t => String c t
  end.
Proof. cbn [TrimRight]. now rewrite cutset_separator. Qed.

Lemma TrimRight_slashes (q : string) :
  exists b, q = TrimRight q "/" ++ slashes b.
Proof.
  induction q as [|c q [b IH]].
  - exists 0%nat. reflexivity.
  - rewrite TrimRight_step.
    destruct (TrimRight q "/") as [|d t] eqn:Et.
    + cbn [append] in IH.
      destruct (Ascii.eqb_spec c Separator) as [->|Hc].
      * exists (S b). cbn [slashes append]. f_equal. exact IH.
      * exists b. cbn [append]. f_equal. exact IH.
    + exists b. cbn [append]. f_equal. exact IH.
Qed.

Lemma TrimLeft_slashes_app (a : nat) (x : string) :
  TrimLeft (slashes a ++ x) "/" = TrimLeft x "/".
Proof. induction a as [|a IH]; [reflexivity | exact IH]. Qed.

Lemma TrimLeft_proper (f : string) :
  properElem f = true -> TrimLeft f "/" = f.
Proof.
  intros H. apply properElem_spec in H as (_ & _ & _ & H).
  destruct f as [|c f]; [reflexivity|].
  cbn [TrimLeft]. rewrite cutset_separator.
  cbn [containsChar] in H. apply orb_false_iff in H as [H _].
  now rewrite H.
Qed.

Lemma TrimRight_noslash (f : string) :
  containsChar Separator f = false -> TrimRight f "/" = f.
Proof.
  induction f as [|c f IH]; [reflexivity|].
  intros H. cbn [containsChar] in H. apply orb_false_iff in H as [Hc Hf].
  rewrite TrimRight_step, (IH Hf), Hc. now destruct f.
Qed.

Lemma TrimRight_app_slashes (f : string) (b : nat) :
  f <> EmptyString -> containsChar Separator f = false ->
  TrimRight (f ++ slashes b) "/" = f.
Proof.
  intros Hne. revert Hne. induction f as [|c f IH]; [congruence|].
  intros _ H. cbn [containsChar] in H. apply orb_false_iff in H as [Hc Hf].
  cbn [append]. rewrite TrimRight_step.
  destruct f as [|d f].
  - cbn [append].
    assert (E : TrimRight (slashes b) "/" = EmptyString).
    { clear. induction b as [|b IH]; [reflexivity|].
      cbn [slashes]. rewrite TrimRight_step, IH.
      now rewrite Ascii.eqb_refl. }
    now rewrite E, Hc.
  - rewrite IH by (discriminate || exact Hf). reflexivity.
Qed.

(** A path trims to the proper name [f] exactly when it is [f] between
    two runs of separators. *)
Lemma Trim_proper (p f : string) :
  properElem f = true ->
  Trim p "/" = f <-> exists a b, p = slashes a ++ f ++ slashes b.
Proof.
  intros Hf. unfold Trim. split.
  - intros H.
    destruct (TrimLeft_slashes p) as [a Ea].
    destruct (TrimRight_slashes (TrimLeft p "/")) as [b Eb].
    exists a, b. rewrite Ea at 1. rewrite Eb at 1. now rewrite H.
  - intros (a & b & ->).
    rewrite TrimLeft_slashes_app.
    assert (Hl : TrimLeft (f ++ slashes b) "/" = f ++ slashes b).
    { pose proof (TrimLeft_proper f Hf) as Hp.
      destruct f as [|c f]; [discriminate|].
      cbn [append TrimLeft] in *.
      destruct (containsChar c "/"); [|reflexivity].
      exfalso. clear -Hp.
      assert (L : forall s, (String.length (TrimLeft s "/")
                             <= String.length s)%nat).
      { induction s as [|x s IH]; cbn [TrimLeft]; [lia|].
        destruct (containsChar x "/"); cbn [String.length]; lia. }
      pose proof (L f) as Hlen. rewrite Hp in Hlen.
      cbn [String.length] in Hlen. lia. }
    rewrite Hl.
    apply properElem_spec in Hf as (Hne & _ & _ & Hs).
    now apply TrimRight_app_slashes.
Qed.

(** X6: in single-file mode, with a proper file name, [serve] goes on to
    the file system exactly for the root path and for the file name
    between any number of leading and trailing separators; every other
    path gets the answer of [http.NotFound] and no file-system call. *)
Theorem single_file_accepts_only_the_name (w : World) (g : Globals)
        (r : Request) :
  properElem (file g) = true ->
  file g <> "*" ->
  let accepted :=
    URLPath r = "/" \/
    exists a b, URLPath r = slashes a ++ file g ++ slashes b in
  let out := exec (serve w g r) start in
  (accepted -> exists rest, ops out = OpStat (resolved g r) :: rest) /\
  (~ accepted -> out = exec (NotFound w r) start).
Proof.
  intros Hf Hmode accepted out.
  assert (Hiff : passes g r <-> accepted).
  { unfold passes, accepted. rewrite (Trim_proper (URLPath r) (file g) Hf).
    tauto. }
  split.
  - intros Hacc. apply Hiff in Hacc.
    destruct (serve_ops_cases w g r) as [[(Hp & Hm & Ht) _] | [_ H]].
    + exfalso. destruct Hacc as [H | [H | H]]; contradiction.
    + destruct H as (rest & H & _). eauto.
  - intros Hno.
    destruct (passes_or_rejected g r) as [Hpass | Hrej].
    + apply Hiff in Hpass. contradiction.
    + subst out. now rewrite (serve_rejected w g r Hrej).
Qed.

Lemma single_file_accepts_only_the_name_witness :
  (exists rest,
     ops (exec (serve Demo.world Demo.oneFile
                  (Demo.get "//index.html///")) start)
     = OpStat "/srv/site/index.html" :: rest) /\
  exec (serve Demo.world Demo.oneFile (Demo.get "/sub/index.html")) start
  = exec (NotFound Demo.world (Demo.get "/sub/index.html")) start.
Proof.
  split.
  - refine (proj1 (single_file_accepts_only_the_name Demo.world Demo.oneFile
              (Demo.get "//index.html///") eq_refl _) _).
    + discriminate.
    + right. exists 2%nat, 3%nat. reflexivity.
  - refine (proj2 (single_file_accepts_only_the_name Demo.world Demo.oneFile
              (Demo.get "/sub/index.html") eq_refl _) _).
    + discriminate.
    + intros [H | (a & b & H)]; [discriminate|].
      cbn [Demo.get URLPath Demo.oneFile file] in H.
      destruct a as [|[|a]]; cbn in H; discriminate.
Defined.

(** *** Where accepted paths and links lead *)

Lemma Split_slashes_app (a : nat) (x : string) :
  Split (slashes a ++ x) Separator
  = (repeat EmptyString a ++ Split x Separator)%list.
Proof.
  induction a as [|a IH]; [reflexivity|].
  cbn [slashes append Split repeat app]. rewrite Ascii.eqb_refl, IH.
  reflexivity.
Qed.

Lemma Split_slashes (b : nat) :
  Split (slashes b) Separator = repeat EmptyString (S b).
Proof.
  rewrite <- (append_empty_r (slashes b)), Split_slashes_app.
  cbn [Split]. now rewrite <- repeat_cons.
Qed.

Lemma Split_name_slashes (f : string) (b : nat) :
  containsChar Separator f = false ->
  Split (f ++ slashes b) Separator = f :: repeat EmptyString b.
Proof.
  intros Hf. destruct b as [|b].
  - cbn [slashes repeat]. rewrite append_empty_r. now apply Split_one.
  - cbn [slashes]. rewrite Split_app, (Split_one f Hf), Split_slashes.
    reflexivity.
Qed.

Lemma scan_empty (rooted : bool) (k : nat) (out : list string) :
  fold_left (Filepath.cleanStep rooted) (repeat EmptyString k) out = out.
Proof. induction k as [|k IH]; [reflexivity | exact IH]. Qed.

(** What the scan makes of a proper name between separators. *)
Lemma scan_name (a b : nat) (f : string) (out : list string) :
  properElem f = true ->
  fold_left (Filepath.cleanStep true)
            (Split (slashes a ++ f ++ slashes b) Separator) out
  = f :: out.
Proof.
  intros Hf. pose proof (properElem_spec f Hf) as (_ & _ & _ & Hs).
  rewrite Split_slashes_app, (Split_name_slashes f b Hs), fold_left_app,
    scan_empty.
  cbn [fold_left]. rewrite (cleanStep_proper out f Hf). apply scan_empty.
Qed.

(** X7: in single-file mode, with a clean absolute root and a proper file
    name, a request that passes the access check resolves to the root
    itself (for the root path) or to the served file directly under the
    root, however many separators surround the name. *)
Theorem single_file_resolves_to_root_or_file (cs : list string)
        (g : Globals) (r : Request) :
  forallb properElem cs = true ->
  root g = absolute cs ->
  properElem (file g) = true ->
  file g <> "*" ->
  passes g r ->
  (URLPath r = "/" /\ resolved g r = root g) \/
  resolved g r = absolute (cs ++ [file g]).
Proof.
  intros Hcs Hroot Hf Hmode Hpass. unfold resolved. rewrite Hroot.
  rewrite (Join_absolute cs (URLPath r) Hcs).
  destruct Hpass as [H | [H | H]].
  - left. split; [exact H|]. rewrite H. cbn.
    now rewrite rev_involutive.
  - contradiction.
  - right. apply (Trim_proper _ _ Hf) in H as (a & b & ->).
    rewrite (scan_name a b (file g) (rev cs) Hf).
    cbn [rev]. now rewrite rev_involutive.
Qed.

Lemma single_file_resolves_to_root_or_file_witness :
  resolved Demo.oneFile (Demo.get "///index.html//")
  = "/srv/site/index.html".
Proof.
  destruct (single_file_resolves_to_root_or_file ["srv"; "site"]
              Demo.oneFile (Demo.get "///index.html//")
              eq_refl eq_refl eq_refl) as [[H _] | H].
  - discriminate.
  - right. right. reflexivity.
  - discriminate.
  - exact H.
Defined.

Lemma slashes_shift (k : nat) (x : string) :
  slashes k ++ String Separator x = String Separator (slashes k ++ x).
Proof.
  induction k as [|k IH]; [reflexivity|].
  cbn [slashes append]. now rewrite IH.
Qed.

(** Separators at the end of the first element do not matter. *)
Lemma Join_trailing_slashes (cs : list string) (k : nat) (x : string) :
  Filepath.Join [absolute cs ++ slashes k; x]
  = Filepath.Join [absolute cs; slashes k ++ x].
Proof.
  unfold absolute. cbn [append Filepath.Join Strings.Join].
  f_equal. f_equal.
  rewrite !append_assoc.
  change ("/" ++ x) with (String Separator x).
  rewrite slashes_shift. reflexivity.
Qed.

Lemma rev_removelast (cs : list string) (top : string)
      (below : list string) :
  rev cs = top :: below -> rev below = removelast cs.
Proof.
  intros H. apply (f_equal (@rev string)) in H.
  rewrite rev_involutive in H. subst cs. cbn [rev].
  now rewrite removelast_last.
Qed.

Lemma Join_parent (cs : list string) (k : nat) :
  forallb properElem cs = true ->
  Filepath.Join [absolute cs ++ slashes k; ".."]
  = absolute (removelast cs).
Proof.
  intros Hcs.
  rewrite Join_trailing_slashes, (Join_absolute _ _ Hcs),
    Split_slashes_app, fold_left_app, scan_empty.
  change (Split ".." Separator) with [".."]. cbn [fold_left].
  unfold absolute. f_equal. f_equal.
  destruct (rev cs) as [|top below] eqn:E.
  - apply (f_equal (@rev string)) in E. rewrite rev_involutive in E.
    now subst cs.
  - assert (Htop : properElem top = true).
    { rewrite forallb_forall in Hcs. apply Hcs, in_rev.
      rewrite E. now left. }
    apply properElem_spec in Htop as (_ & _ & Hdd & _).
    unfold Filepath.cleanStep. cbn [String.eqb Ascii.eqb Bool.eqb].
    apply String.eqb_neq in Hdd. rewrite Hdd.
    exact (rev_removelast cs top below E).
Qed.

Lemma Join_child (cs : list string) (k : nat) (name : string) :
  forallb properElem cs = true ->
  properElem name = true ->
  Filepath.Join [absolute cs ++ slashes k; name] = absolute (cs ++ [name]).
Proof.
  intros Hcs Hn.
  rewrite Join_trailing_slashes, (Join_absolute _ _ Hcs).
  replace (slashes k ++ name) with (slashes k ++ name ++ slashes 0)
    by (cbn [slashes]; now rewrite append_empty_r).
  rewrite (scan_name k 0 name (rev cs) Hn).
  cbn [rev]. now rewrite rev_involutive.
Qed.

(** X19: where the links of a page lead.  For a request path made of
    proper elements (with any number of trailing separators) the entry
    [..] links to the path without its last element, the root for a
    path of one element or none, and an entry with a proper name links
    to the path extended by that name. *)
Theorem listing_links (w : World) (r : Request) (cs names : list string)
        (k : nat) :
  forallb properElem cs = true ->
  forallb properElem names = true ->
  URLPath r = absolute cs ++ slashes k ->
  sent (exec (listFiles w r (".." :: names)) start)
  = framed (URLPath r)
      (linkLine (absolute (removelast cs)) ".." ++
       String.concat EmptyString
         (map (fun name => linkLine (absolute (cs ++ [name])) name) names)).
Proof.
  intros Hcs Hnames Hpath.
  unfold exec. rewrite exec_listFiles.
  change (sent _) with (page (URLPath r) (".." :: names)).
  unfold page. cbn [map]. rewrite concat_empty_cons.
  change (framed (URLPath r)
            (entryLine (URLPath r) ".." ++
             String.concat EmptyString (map (entryLine (URLPath r)) names))
          = framed (URLPath r)
              (linkLine (absolute (removelast cs)) ".." ++
               String.concat EmptyString
                 (map (fun name => linkLine (absolute (cs ++ [name])) name)
                      names))).
  f_equal. f_equal.
  - unfold entryLine, linkLine. rewrite Hpath, (Join_parent cs k Hcs).
    reflexivity.
  - f_equal. apply map_ext_in. intros name Hin.
    rewrite forallb_forall in Hnames.
    unfold entryLine, linkLine.
    rewrite Hpath, (Join_child cs k name Hcs (Hnames name Hin)).
    reflexivity.
Qed.

Lemma listing_links_witness :
  sent (exec (listFiles Demo.world (Demo.get "/sub/") [".."; "a.txt"])
             start)
  = framed "/sub/" (linkLine "/" ".." ++ linkLine "/sub/a.txt" "a.txt").
Proof.
  exact (listing_links Demo.world (Demo.get "/sub/") ["sub"] ["a.txt"] 1
           eq_refl eq_refl eq_refl).
Defined.

(** *** Corner cases of start-up *)

Lemma Abs_without_cwd (w : World) (path : string) (e : Error) :
  Filepath.IsAbs path = false ->
  Getwd w = Err e ->
  filepath_Abs w path = (EmptyString, Some e).
Proof.
  intros Hrel Hwd. unfold filepath_Abs, os_Getwd. now rewrite Hrel, Hwd.
Qed.

Lemma resolved_from_empty_root (g : Globals) (r : Request) :
  root g = EmptyString ->
  URLPath r <> EmptyString ->
  resolved g r = Filepath.Clean (URLPath r).
Proof.
  intros Hroot Hpath. unfold resolved. rewrite Hroot.
  destruct (URLPath r); [congruence | reflexivity].
Qed.

(** X9: a relative directory argument while the working directory cannot
    be determined.  [resolvePath] reports success all the same, the root
    is left empty, everything is served, and request paths are then
    resolved from the root of the file system. *)
Theorem directory_without_cwd_serves_from_root (w : World) (g : Globals)
        (fi : FileInfo) (e : Error) :
  root g <> EmptyString ->
  Filepath.IsAbs (root g) = false ->
  Getwd w = Err e ->
  Stat w (root g) = Ok fi ->
  IsDir fi = true ->
  let g' := snd (resolvePath w g) in
  fst (resolvePath w g) = None /\
  root g' = EmptyString /\
  file g' = "*" /\
  forall r, passes g' r /\
            (URLPath r <> EmptyString ->
             resolved g' r = Filepath.Clean (URLPath r)).
Proof.
  intros Hne Hrel Hwd Hstat Hdir g'.
  assert (Harg : argument w g = root g).
  { unfold argument. destruct (root g); [congruence | reflexivity]. }
  assert (E : resolvePath w g
              = (None, mkGlobals EmptyString "*" (netIF g) (port g))).
  { apply (resolvePath_directory_drops_abs_error w g fi e);
      rewrite ?Harg; auto using Abs_without_cwd. }
  subst g'. rewrite E. cbn [fst snd root file].
  repeat split; try reflexivity.
  - right. left. reflexivity.
  - intros Hpath. now apply resolved_from_empty_root.
Qed.

Lemma directory_without_cwd_serves_from_root_witness :
  let g := mkGlobals "." EmptyString EmptyString 8000 in
  let g' := snd (resolvePath Edge.orphaned g) in
  fst (resolvePath Edge.orphaned g) = None /\
  resolved g' (Demo.get "/srv/secret") = "/srv/secret" /\
  sent (exec (serve Edge.orphaned g' (Demo.get "/srv/secret")) start)
  = "top secret".
Proof.
  intros g g'.
  destruct (directory_without_cwd_serves_from_root Edge.orphaned g
              (mkFileInfo "." true Demo.mtime) Edge.gone)
    as (H1 & _ & _ & H4); try reflexivity; try discriminate.
  split; [exact H1|]. split; [|reflexivity].
  apply (H4 (Demo.get "/srv/secret")). discriminate.
Defined.

(** X10: a regular file whose own name is the asterisk.  Its base name
    is stored in [file] like any other, where it reads as the
    serve-everything sentinel: no request is rejected by the access
    check, and the whole parent directory is served. *)
Theorem file_named_asterisk_serves_everything (w : World) (g : Globals)
        (fi : FileInfo) (abs : string) :
  Stat w (argument w g) = Ok fi ->
  IsDir fi = false ->
  filepath_Abs w (argument w g) = (abs, None) ->
  Filepath.Base abs = "*" ->
  let g' := snd (resolvePath w g) in
  fst (resolvePath w g) = None /\
  root g' = Filepath.Dir abs /\
  file g' = "*" /\
  forall r, passes g' r.
Proof.
  intros Hstat Hdir Habs Hbase g'. subst g'.
  rewrite resolvePath_argument, Hstat, Hdir, Habs, Hbase.
  cbn [fst snd root file setRoot setFile].
  repeat split. intros r. right. left. reflexivity.
Qed.

Lemma file_named_asterisk_serves_everything_witness :
  let g := mkGlobals "/srv/site/*" EmptyString EmptyString 8000 in
  let g' := snd (resolvePath Edge.starred g) in
  g' = mkGlobals "/srv/site" "*" EmptyString 8000 /\
  passes g' (Demo.get "/other.html") /\
  sent (exec (serve Edge.starred g' (Demo.get "/other.html")) start)
  = "<html>other</html>".
Proof.
  intros g g'.
  destruct (file_named_asterisk_serves_everything Edge.starred g
              (mkFileInfo "*" false Demo.mtime) "/srv/site/*"
              eq_refl eq_refl eq_refl eq_refl) as (_ & _ & _ & H).
  split; [reflexivity|]. split; [apply H | reflexivity].
Defined.

Lemma IsAbs_inv (p : string) :
  Filepath.IsAbs p = true -> exists p', p = String Separator p'.
Proof.
  destruct p as [|c p]; [discriminate|].
  unfold Filepath.IsAbs. cbn [HasPrefix].
  rewrite andb_true_r. intros H. apply Ascii.eqb_eq in H. subst c. eauto.
Qed.

Lemma IsAbs_Clean (p : string) :
  Filepath.IsAbs p = true -> Filepath.IsAbs (Filepath.Clean p) = true.
Proof.
  intros H. apply IsAbs_inv in H as [p' ->]. reflexivity.
Qed.

Lemma IsAbs_Dir (p : string) :
  Filepath.IsAbs p = true -> Filepath.IsAbs (Filepath.Dir p) = true.
Proof.
  intros H. apply IsAbs_inv in H as [p' ->].
  unfold Filepath.Dir. apply IsAbs_Clean.
  cbn [Filepath.uptoLastSeparator].
  destruct (Filepath.uptoLastSeparator p'); reflexivity.
Qed.

Lemma IsAbs_Abs (w : World) (path abs : string) :
  (forall wd, Getwd w = Ok wd -> Filepath.IsAbs wd = true) ->
  filepath_Abs w path = (abs, None) ->
  Filepath.IsAbs abs = true.
Proof.
  intros Hwd. unfold filepath_Abs, os_Getwd.
  destruct (Filepath.IsAbs path) eqn:Hp.
  - intros E. injection E as <-. now apply IsAbs_Clean.
  - destruct (Getwd w) as [wd|e] eqn:Hg; [|discriminate].
    intros E. injection E as <-.
    destruct (IsAbs_inv wd (Hwd wd eq_refl)) as [wd' ->].
    reflexivity.
Qed.

(** X11: with an absolute working directory, a successful [resolvePath]
    leaves an absolute root, or an empty one; the empty root arises only
    in the directory branch, from the unchecked error of
    [filepath.Abs]. *)
Theorem resolvePath_root_is_absolute (w : World) (g g' : Globals) :
  (forall wd, Getwd w = Ok wd -> Filepath.IsAbs wd = true) ->
  resolvePath w g = (None, g') ->
  Filepath.IsAbs (root g') = true \/
  (root g' = EmptyString /\ file g' = "*" /\
   exists e, snd (filepath_Abs w (argument w g)) = Some e).
Proof.
  intros Hwd. rewrite resolvePath_argument. cbv zeta.
  destruct (Stat w (argument w g)) as [fi|e]; [|discriminate].
  destruct (IsDir fi).
  - intros E. injection E as <-. cbn [root file setRoot setFile].
    destruct (filepath_Abs w (argument w g)) as [abs [e|]] eqn:Habs.
    + right. cbn [fst snd].
      assert (abs = EmptyString) as ->.
      { revert Habs. unfold filepath_Abs, os_Getwd.
        destruct (Filepath.IsAbs (argument w g)); [discriminate|].
        destruct (Getwd w); [discriminate|]. now intros [= <- _]. }
      eauto.
    + left. cbn [fst]. exact (IsAbs_Abs w _ _ Hwd Habs).
  - destruct (filepath_Abs w (argument w g)) as [abs [e|]] eqn:Habs;
      [discriminate|].
    intros E. injection E as <-. cbn [root setRoot setFile].
    left. apply IsAbs_Dir. exact (IsAbs_Abs w _ _ Hwd Habs).
Qed.

Lemma resolvePath_root_is_absolute_witness :
  Filepath.IsAbs (root (snd (resolvePath Demo.world flagDefaults))) = true.
Proof.
  destruct (resolvePath_root_is_absolute Demo.world flagDefaults
              (mkGlobals "/srv/site" "*" EmptyString 8000))
    as [H | (H & _)].
  - intros wd E. injection E as <-. reflexivity.
  - reflexivity.
  - exact H.
  - discriminate.
Defined.

(** *** The listening address *)

Lemma firstIPv4_Some (addrs : list Addr) (a : IP) :
  firstIPv4 addrs = Some a <->
  exists pre post,
    addrs = (pre ++ IPNet a :: post)%list /\
    forallb notIPv4 pre = true /\ To4 a = true.
Proof.
  split.
  - induction addrs as [|[ip|] addrs IH]; cbn [firstIPv4]; [discriminate| |].
    + destruct (To4 ip) eqn:E.
      * intros [= ->]. exists [], addrs. auto.
      * intros H. destruct (IH H) as (pre & post & -> & Hpre & Ha).
        exists (IPNet ip :: pre), post. cbn [forallb notIPv4 app].
        rewrite E. auto.
    + intros H. destruct (IH H) as (pre & post & -> & Hpre & Ha).
      exists (OtherAddr :: pre), post. auto.
  - intros (pre & post & -> & Hpre & Ha).
    induction pre as [|[ip|] pre IH]; cbn [app firstIPv4].
    + now rewrite Ha.
    + cbn [forallb notIPv4] in Hpre. apply andb_true_iff in Hpre as [H1 H2].
      apply negb_true_iff in H1. rewrite H1. now apply IH.
    + cbn [forallb notIPv4] in Hpre. now apply IH.
Qed.

Lemma firstIPv4_None (addrs : list Addr) :
  firstIPv4 addrs = None <-> forallb notIPv4 addrs = true.
Proof.
  induction addrs as [|[ip|] addrs IH]; cbn [firstIPv4 forallb notIPv4].
  - tauto.
  - destruct (To4 ip); cbn [negb andb]; [|exact IH].
    split; discriminate.
  - exact IH.
Qed.

Lemma resolveInterface_lookup (w : World) (g : Globals) :
  resolveInterface w g =
  match interfaceLookup w g with
  | Err err => ((EmptyString, Some err), [])
  | Ok n =>
      match Addrs n with
      | Err err => ((EmptyString, Some err), [])
      | Ok addrs =>
          match firstIPv4 addrs with
          | Some ip =>
              ((IPString ip, None),
               [logLine w "choosing interface: %s." [IfName n]])
          | None =>
              ((EmptyString, Some (mkError false "fail to find addr")), [])
          end
      end
  end.
Proof.
  unfold resolveInterface, interfaceLookup.
  destruct (netIF g); reflexivity.
Qed.

(** X12: [resolveInterface] succeeds exactly when the interface looked up
    (the named one, or index 1 without a name) has an IPv4 [*net.IPNet]
    address; it returns the first such address in the order of the list,
    whatever comes before it, and logs the one line naming the
    interface. *)
Theorem resolveInterface_picks_first_ipv4 (w : World) (g : Globals)
        (ip : string) (out : list string) :
  resolveInterface w g = ((ip, None), out) <->
  exists n pre a post,
    interfaceLookup w g = Ok n /\
    Addrs n = Ok (pre ++ IPNet a :: post)%list /\
    forallb notIPv4 pre = true /\
    To4 a = true /\
    ip = IPString a /\
    out = [logLine w "choosing interface: %s." [IfName n]].
Proof.
  rewrite resolveInterface_lookup. split.
  - destruct (interfaceLookup w g) as [n|e]; [|discriminate].
    destruct (Addrs n) as [addrs|e] eqn:Ha; [|discriminate].
    destruct (firstIPv4 addrs) as [a|] eqn:Hf; [|discriminate].
    intros [= <- <-].
    apply firstIPv4_Some in Hf as (pre & post & -> & Hpre & H4).
    exists n, pre, a, post. auto 7.
  - intros (n & pre & a & post & -> & Ha & Hpre & H4 & -> & ->).
    rewrite Ha.
    assert (Hf : firstIPv4 (pre ++ IPNet a :: post) = Some a)
      by (apply firstIPv4_Some; eauto).
    now rewrite Hf.
Qed.

(** X13: how [resolveInterface] fails.  An error of the interface lookup
    or of the address query is returned as it is; an interface without
    an IPv4 [*net.IPNet] address gives the error "fail to find addr", and
    only such an interface does; nothing is logged on any failure. *)
Theorem resolveInterface_failures (w : World) (g : Globals) :
  (forall e,
     interfaceLookup w g = Err e ->
     resolveInterface w g = ((EmptyString, Some e), [])) /\
  (forall n e,
     interfaceLookup w g = Ok n -> Addrs n = Err e ->
     resolveInterface w g = ((EmptyString, Some e), [])) /\
  (forall n addrs,
     interfaceLookup w g = Ok n -> Addrs n = Ok addrs ->
     (forallb notIPv4 addrs = true <->
      resolveInterface w g =
      ((EmptyString, Some (mkError false "fail to find addr")), []))).
Proof.
  rewrite resolveInterface_lookup. split; [|split].
  - intros e ->. reflexivity.
  - intros n e -> ->. reflexivity.
  - intros n addrs -> ->. rewrite <- firstIPv4_None.
    destruct (firstIPv4 addrs); split; congruence.
Qed.

Lemma resolveInterface_failures_witness :
  resolveInterface Edge.wired
    (mkGlobals "/srv/site" "*" "sit0" 8000)
  = ((EmptyString, Some (mkError false "fail to find addr")), []) /\
  resolveInterface Edge.wired
    (mkGlobals "/srv/site" "*" "eth1" 8000)
  = ((EmptyString, Some Demo.enoent), []).
Proof.
  split.
  - destruct (resolveInterface_failures Edge.wired
                (mkGlobals "/srv/site" "*" "sit0" 8000)) as (_ & _ & H).
    apply (H Edge.sit0 [IPNet (mkIP false "fe80::2"); OtherAddr]
             eq_refl eq_refl).
    reflexivity.
  - destruct (resolveInterface_failures Edge.wired
                (mkGlobals "/srv/site" "*" "eth1" 8000)) as (H & _).
    apply H. reflexivity.
Defined.

Example resolveInterface_skips_ipv6 :
  resolveInterface Edge.wired (mkGlobals "/srv/site" "*" "eth0" 8000)
  = (("192.0.2.10", None),
     ["2020.01.02 03:04:05 choosing interface: eth0." ++ nl]).
Proof. reflexivity. Qed.

Lemma resolvePath_keeps_flags (w : World) (g : Globals) :
  netIF (snd (resolvePath w g)) = netIF g /\
  port (snd (resolvePath w g)) = port g.
Proof.
  rewrite resolvePath_argument. cbv zeta.
  destruct (Stat w (argument w g)) as [fi|e]; [|split; reflexivity].
  destruct (IsDir fi); [split; reflexivity|].
  destruct (filepath_Abs w (argument w g)) as [abs [e|]]; split; reflexivity.
Qed.

(** X14: how [main] ends.  Every exit has code 10, and the last line on
    standard error is the text of the error that caused it: the one
    [resolvePath] returned, or else the one [resolveInterface] returned
    on the resolved globals, or else the one [http.ListenAndServe]
    returned.  The server listens exactly when [resolvePath] and then
    [resolveInterface], on the resolved globals, both succeed and
    [http.ListenAndServe] does not return; the address is the resolved
    IP, a colon and the port flag. *)
Theorem main_outcome (w : World) (g : Globals) :
  (forall c,
     fst (main w g) = Exit c ->
     c = 10 /\
     exists e,
       last (snd (main w g)) EmptyString = ErrorText e ++ nl /\
       (resolvePath w g = (Some e, snd (resolvePath w g)) \/
        exists g',
          resolvePath w g = (None, g') /\
          ((exists out, resolveInterface w g'
                        = ((EmptyString, Some e), out)) \/
           exists ip out,
             resolveInterface w g' = ((ip, None), out) /\
             ListenAndServe w (ip ++ ":" ++ Itoa (port g)) = Some e))) /\
  (forall addr g',
     fst (main w g) = Serving addr g' <->
     resolvePath w g = (None, g') /\
     exists ip out,
       resolveInterface w g' = ((ip, None), out) /\
       addr = ip ++ ":" ++ Itoa (port g) /\
       ListenAndServe w addr = None).
Proof.
  pose proof (resolvePath_keeps_flags w g) as [_ Hport].
  unfold main, exit, after.
  destruct (resolvePath w g) as [[e|] g1] eqn:Hr; cbn [snd] in Hport.
  - split.
    + intros c [= <-]. split; [reflexivity|]. exists e.
      split; [reflexivity|]. left. reflexivity.
    + intros addr g'. split; [discriminate|]. intros [[=] _].
  - assert (Hempty : forall ip e out,
              resolveInterface w g1 = ((ip, Some e), out) ->
              ip = EmptyString).
    { intros ip e out. rewrite resolveInterface_lookup.
      destruct (interfaceLookup w g1) as [n|e']; [|congruence].
      destruct (Addrs n) as [addrs|e']; [|congruence].
      destruct (firstIPv4 addrs); congruence. }
    destruct (resolveInterface w g1) as [[ip [e|]] out] eqn:Hi.
    + split.
      * intros c [= <-]. split; [reflexivity|]. exists e.
        split; [cbn [fst snd]; now rewrite last_last|].
        right. exists g1. split; [reflexivity|]. left. exists out.
        pose proof (Hempty ip e out eq_refl) as ->. exact Hi.
      * intros addr g'. split; [discriminate|].
        intros [[= <-] (ip' & out' & H & _)]. congruence.
    + rewrite Hport.
      destruct (ListenAndServe w (ip ++ ":" ++ Itoa (port g))) as [e|]
        eqn:Hl.
      * split.
        -- intros c [= <-]. split; [reflexivity|]. exists e.
           split; [cbn [fst snd]; now rewrite last_last|].
           right. exists g1. split; [reflexivity|]. right.
           exists ip, out. auto.
        -- intros addr g'. split; [discriminate|].
           intros [[= <-] (ip' & out' & H & -> & Hl')].
           rewrite Hi in H. injection H as <- <-. congruence.
      * split; [discriminate|].
        intros addr g'. cbn [fst]. split.
        -- intros [= <- <-]. split; [reflexivity|]. eauto.
        -- intros [[= <-] (ip' & out' & H & -> & _)].
           rewrite Hi in H. injection H as <- <-. reflexivity.
Qed.

Lemma main_outcome_witness :
  fst (main Demo.world (mkGlobals "/nowhere" EmptyString EmptyString 8000))
  = Exit 10 /\
  last (snd (main Demo.world
               (mkGlobals "/nowhere" EmptyString EmptyString 8000)))
       EmptyString
  = "no such file or directory" ++ nl.
Proof.
  destruct (main_outcome Demo.world
              (mkGlobals "/nowhere" EmptyString EmptyString 8000))
    as [H _].
  destruct (H 10 eq_refl) as (_ & e & Hlast & Hcause).
  split; [reflexivity|].
  destruct Hcause as [Hp | (g' & Hp & _)].
  - vm_compute in Hp. injection Hp as <-. exact Hlast.
  - vm_compute in Hp. discriminate.
Defined.

(** X15: started without flags in an absolute working directory, with an
    IPv4 address on the interface of index 1, the program serves the
    cleaned working directory whole, on port 8000 of that address. *)
Theorem default_flags_serve_working_directory (w : World) (wd : string)
        (fi : FileInfo) (n : Interface) (addrs : list Addr) (a : IP) :
  Getwd w = Ok wd ->
  Filepath.IsAbs wd = true ->
  Stat w wd = Ok fi ->
  IsDir fi = true ->
  InterfaceByIndex w 1 = Ok n ->
  Addrs n = Ok addrs ->
  firstIPv4 addrs = Some a ->
  ListenAndServe w (IPString a ++ ":8000") = None ->
  fst (main w flagDefaults)
  = Serving (IPString a ++ ":8000")
            (mkGlobals (Filepath.Clean wd) "*" EmptyString 8000).
Proof.
  intros Hwd Habs Hstat Hdir Hif Haddrs Hfirst Hlisten.
  assert (Hwd' : wd <> EmptyString).
  { destruct (IsAbs_inv wd Habs) as [wd' ->]. discriminate. }
  assert (Harg : argument w flagDefaults = wd).
  { unfold argument, flagDefaults, os_Getwd. cbn [root]. now rewrite Hwd. }
  assert (Hpath : resolvePath w flagDefaults
                  = (None, mkGlobals (Filepath.Clean wd) "*"
                                     EmptyString 8000)).
  { rewrite resolvePath_argument, Harg, Hstat, Hdir.
    unfold filepath_Abs. now rewrite Habs. }
  assert (Hip : resolveInterface w
                  (mkGlobals (Filepath.Clean wd) "*" EmptyString 8000)
                = ((IPString a, None),
                   [logLine w "choosing interface: %s." [IfName n]])).
  { rewrite resolveInterface_lookup. unfold interfaceLookup. cbn [netIF].
    now rewrite Hif, Haddrs, Hfirst. }
  unfold main. rewrite Hpath, Hip. cbn [port].
  change (":" ++ Itoa 8000) with ":8000". now rewrite Hlisten.
Qed.

Lemma default_flags_serve_working_directory_witness :
  fst (main Demo.world flagDefaults)
  = Serving "127.0.0.1:8000" (mkGlobals "/srv/site" "*" EmptyString 8000).
Proof.
  exact (default_flags_serve_working_directory Demo.world "/srv/site"
           (mkFileInfo "site" true Demo.mtime) Demo.lo
           [OtherAddr; IPNet (mkIP true "127.0.0.1")]
           (mkIP true "127.0.0.1")
           eq_refl eq_refl eq_refl eq_refl eq_refl eq_refl eq_refl eq_refl).
Defined.

(** *** The access line *)

Lemma containsChar_app (c : ascii) (a b : string) :
  containsChar c (a ++ b) = containsChar c a || containsChar c b.
Proof.
  induction a as [|x a IH]; [reflexivity|].
  cbn [append containsChar]. now rewrite IH, orb_assoc.
Qed.

Lemma verbFree_app (a b : string) :
  verbFree (a ++ b) = verbFree a && verbFree b.
Proof. unfold verbFree. now rewrite containsChar_app, negb_orb. Qed.

(** A character other than the percent sign is copied. *)
Lemma Sprintf_copy (c : ascii) (rest : string) (a : list string) :
  Ascii.eqb c "%" = false ->
  Sprintf (String c rest) a = String c (Sprintf rest a).
Proof.
  destruct c as [[] [] [] [] [] [] [] []]; intros H;
    try reflexivity; discriminate H.
Qed.

Lemma Sprintf_verbFree_app (x y : string) (a : list string) :
  verbFree x = true -> Sprintf (x ++ y) a = x ++ Sprintf y a.
Proof.
  induction x as [|c x IH]; [reflexivity|].
  unfold verbFree. cbn [containsChar append]. intros H.
  apply negb_true_iff, orb_false_iff in H as [Hc Hx].
  rewrite (Sprintf_copy c _ a Hc), IH; [reflexivity|].
  unfold verbFree. now rewrite Hx.
Qed.

Lemma Sprintf_verbFree (x : string) :
  verbFree x = true -> Sprintf x [] = x.
Proof.
  intros H. rewrite <- (append_empty_r x) at 1.
  rewrite (Sprintf_verbFree_app x EmptyString [] H).
  apply append_empty_r.
Qed.

(** Whether a text ends with a line feed depends on its last character
    only. *)
Lemma HasSuffix_nl_step (c d : ascii) (s : string) :
  HasSuffix (String c (String d s)) nl = HasSuffix (String d s) nl.
Proof.
  unfold HasSuffix. cbn [String.length nl].
  cbn [Nat.leb Nat.sub]. rewrite !Nat.sub_0_r.
  reflexivity.
Qed.

Lemma HasSuffix_nl_app (x : string) (c : ascii) (y : string) :
  HasSuffix (x ++ String c y) nl = HasSuffix (String c y) nl.
Proof.
  induction x as [|a x IH]; [reflexivity|].
  cbn [append]. destruct x as [|b x].
  - cbn [append] in *. apply HasSuffix_nl_step.
  - cbn [append] in *. now rewrite HasSuffix_nl_step.
Qed.

Lemma HasSuffix_nl_space (path : string) :
  HasSuffix (String " " path) nl = HasSuffix path nl.
Proof.
  destruct path as [|c path]; [reflexivity | apply HasSuffix_nl_step].
Qed.

Lemma verbFree_nl_tail (path : string) :
  verbFree (if HasSuffix path nl then EmptyString else nl) = true.
Proof. now destruct (HasSuffix path nl). Qed.

(** The format [log] builds from the access line. *)
Lemma access_format (w : World) (ip code path : string) :
  logLine w (Strings.Join ["[" ++ ip ++ "]"; code; path] " ") []
  = Sprintf (Now w ++ "[" ++ ip ++ "] " ++ code ++ " " ++ path
             ++ (if HasSuffix path nl then EmptyString else nl)) [].
Proof.
  unfold logLine. cbn [Strings.Join].
  assert (Hs : HasSuffix (("[" ++ ip ++ "]") ++ " " ++ code ++ " " ++ path)
                         nl
               = HasSuffix path nl).
  { transitivity (HasSuffix (String " " path) nl);
      [|apply HasSuffix_nl_space].
    replace (("[" ++ ip ++ "]") ++ " " ++ code ++ " " ++ path)
      with ((("[" ++ ip ++ "]") ++ " " ++ code) ++ String " " path)
      by (now rewrite !append_assoc).
    apply HasSuffix_nl_app. }
  rewrite Hs. f_equal. f_equal.
  destruct (HasSuffix path nl); cbn [negb];
    rewrite ?append_empty_r, !append_assoc; reflexivity.
Qed.

Lemma handleFunc_run (w : World) (g : Globals) (r : Request) :
  let base := exec (serve w g r) start in
  exec (handleFunc w g r) start
  = mkHState (rw base) (ops base)
      (stderr base ++
       [logLine w (Strings.Join ["[" ++ remoteIP r ++ "]";
                                 Itoa (status (rw base)); URLPath r] " ")
                []]).
Proof.
  unfold handleFunc, exec, bind. destruct (serve w g r start). reflexivity.
Qed.

Lemma serve_status_cases (w : World) (g : Globals) (r : Request) :
  let out := exec (serve w g r) start in
  statusLine out = Some (status (rw out)) /\
  (status (rw out) = StatusOK \/ status (rw out) = StatusNotModified \/
   status (rw out) = StatusNotFound \/
   status (rw out) = StatusInternalServerError).
Proof.
  intros out. unfold statusLine.
  destruct (serve_response_cases w g r)
    as [H | [H | [[files H] | (fi & f & H)]]];
    fold out in H; rewrite H; auto.
  destruct (ServeContent_fresh_status w r "foo" (ModTime fi) f)
    as [[H1 H2] | [H1 H2]]; unfold statusLine in H1; rewrite H1, H2; auto.
Qed.

Lemma verbFree_status (w : World) (g : Globals) (r : Request) :
  verbFree (Itoa (status (rw (exec (serve w g r) start)))) = true.
Proof.
  destruct (serve_status_cases w g r) as [_ [H | [H | [H | H]]]];
    rewrite H; reflexivity.
Qed.

(** X16: the access line.  The closure registered by [main] leaves the
    response and the file-system calls of [serve] as they are and adds
    one line to standard error, after whatever [serve] logged.  When the
    time stamp, the client part of the remote address and the path hold
    no percent sign, the line is the time stamp, the client in brackets,
    the status sent to the client and the path, ended by a line feed
    unless the path already ends with one. *)
Theorem access_line (w : World) (g : Globals) (r : Request) :
  verbFree (Now w) = true ->
  verbFree (remoteIP r) = true ->
  verbFree (URLPath r) = true ->
  let base := exec (serve w g r) start in
  let out := exec (handleFunc w g r) start in
  rw out = rw base /\
  ops out = ops base /\
  exists c,
    statusLine out = Some c /\
    stderr out =
      (stderr base ++
       [(Now w ++ "[" ++ remoteIP r ++ "] " ++ Itoa c ++ " " ++ URLPath r
         ++ (if HasSuffix (URLPath r) nl then EmptyString else nl))%string]
      )%list.
Proof.
  intros Hnow Hip Hpath base out. subst out.
  rewrite handleFunc_run. fold base. cbn [rw ops stderr].
  split; [reflexivity|]. split; [reflexivity|].
  exists (status (rw base)).
  split; [exact (proj1 (serve_status_cases w g r))|].
  f_equal. f_equal. rewrite access_format.
  apply Sprintf_verbFree.
  rewrite !verbFree_app, Hnow, Hip, Hpath, verbFree_nl_tail.
  subst base. now rewrite verbFree_status.
Qed.

Lemma access_line_witness :
  stderr (exec (handleFunc Demo.world Demo.oneFile
                  (Demo.get "/other.html")) start)
  = ["2020.01.02 03:04:05 [192.0.2.7] 404 /other.html" ++ nl].
Proof.
  destruct (access_line Demo.world Demo.oneFile (Demo.get "/other.html")
              eq_refl eq_refl eq_refl) as (_ & _ & c & Hc & Hline).
  vm_compute in Hc. injection Hc as <-. exact Hline.
Defined.

(** X17: the access line is handed to [log] as the format, so a verb in
    the request path is carried out: with nothing to print, [%s] comes
    out as Go's missing-operand marker. *)
Theorem access_line_formats_the_path (w : World) (g : Globals)
        (r : Request) (a b : string) :
  verbFree (Now w) = true ->
  verbFree (remoteIP r) = true ->
  verbFree a = true ->
  verbFree b = true ->
  URLPath r = a ++ "%s" ++ b ->
  let base := exec (serve w g r) start in
  let out := exec (handleFunc w g r) start in
  exists c,
    statusLine out = Some c /\
    stderr out =
      (stderr base ++
       [(Now w ++ "[" ++ remoteIP r ++ "] " ++ Itoa c ++ " " ++ a
         ++ "%!s(MISSING)" ++ b
         ++ (if HasSuffix (URLPath r) nl then EmptyString else nl))%string]
      )%list.
Proof.
  intros Hnow Hip Ha Hb Hpath base out. subst out.
  rewrite handleFunc_run. fold base. cbn [rw ops stderr].
  exists (status (rw base)).
  split; [exact (proj1 (serve_status_cases w g r))|].
  f_equal. f_equal. rewrite access_format.
  set (tail := if HasSuffix (URLPath r) nl then EmptyString else nl).
  assert (Htail : verbFree tail = true) by apply verbFree_nl_tail.
  rewrite Hpath.
  replace (Now w ++ "[" ++ remoteIP r ++ "] " ++
           Itoa (status (rw base)) ++ " " ++ (a ++ "%s" ++ b) ++ tail)
    with ((Now w ++ "[" ++ remoteIP r ++ "] " ++
           Itoa (status (rw base)) ++ " " ++ a) ++ "%s" ++ (b ++ tail))
    by (now rewrite !append_assoc).
  rewrite Sprintf_verbFree_app.
  - change (Sprintf ("%s" ++ b ++ tail) [])
      with ("%!s(MISSING)" ++ Sprintf (b ++ tail) []).
    rewrite (Sprintf_verbFree (b ++ tail))
      by (now rewrite verbFree_app, Hb, Htail).
    now rewrite !append_assoc.
  - rewrite !verbFree_app, Hnow, Hip, Ha.
    subst base. now rewrite verbFree_status.
Qed.

Lemma access_line_formats_the_path_witness :
  stderr (exec (handleFunc Demo.world Demo.everything
                  (Demo.get "/a%sb")) start)
  = ["2020.01.02 03:04:05 [192.0.2.7] 404 /a%!s(MISSING)b" ++ nl].
Proof.
  destruct (access_line_formats_the_path Demo.world Demo.everything
              (Demo.get "/a%sb") "/a" "b"
              eq_refl eq_refl eq_refl eq_refl eq_refl)
    as (c & Hc & Hline).
  vm_compute in Hc. injection Hc as <-. exact Hline.
Defined.

Lemma Split_head (s : string) (sep : ascii) :
  exists h t,
    Split s sep = h :: t /\
    containsChar sep h = false /\
    ((t = [] /\ s = h) \/ exists rest, s = h ++ String sep rest).
Proof.
  induction s as [|a s (h & t & Hs & Hh & Hrest)].
  - exists EmptyString, []. auto.
  - cbn [Split]. destruct (Ascii.eqb_spec a sep) as [->|Hne].
    + exists EmptyString, (Split s sep). repeat split. right.
      exists s. reflexivity.
    + rewrite Hs. exists (String a h), t. repeat split.
      * cbn [containsChar]. apply Ascii.eqb_neq in Hne.
        now rewrite Hne, Hh.
      * destruct Hrest as [[-> ->] | [rest ->]]; [left; auto|].
        right. exists rest. reflexivity.
Qed.

(** X18: the client printed in the access line is the part of
    [r.RemoteAddr] before its first colon, the whole address when it has
    none; for a bracketed IPv6 address that is the opening bracket and
    what precedes the first colon inside. *)
Theorem remoteIP_stops_at_first_colon (r : Request) :
  containsChar ":" (remoteIP r) = false /\
  (RemoteAddr r = remoteIP r \/
   exists rest, RemoteAddr r = remoteIP r ++ String ":" rest).
Proof.
  unfold remoteIP. cbv zeta.
  destruct (containsChar ":" (RemoteAddr r)) eqn:Hc.
  - destruct (Split_head (RemoteAddr r) ":")
      as (h & t & Hs & Hh & [[-> E] | [rest E]]); rewrite Hs; cbn [hd];
      split; auto.
    right. eauto.
  - split; auto.
Qed.

Example remoteIP_of_ipv6 :
  remoteIP (mkRequest "GET" "/" None "[2001:db8::1]:40000") = "[2001".
Proof. reflexivity. Qed.

(** *** Error lines, the wrapper, trailing separators *)

(** X20: the error lines of [serve].  [log] called with a format of two
    [%s] verbs prints the time stamp, the format with the two operands in
    place of the verbs, and a line feed; the operands are copied as they
    are, percent signs included. *)
Theorem log_two_operands (w : World) (p m t x y : string) :
  verbFree (Now w) = true ->
  verbFree p = true ->
  verbFree m = true ->
  verbFree t = true ->
  HasSuffix (p ++ "%s" ++ m ++ "%s" ++ t) nl = false ->
  logLine w (p ++ "%s" ++ m ++ "%s" ++ t) [x; y]
  = Now w ++ p ++ x ++ m ++ y ++ t ++ nl.
Proof.
  intros Hnow Hp Hm Ht Hnl. unfold logLine. rewrite Hnl. cbn [negb].
  rewrite !append_assoc.
  rewrite (Sprintf_verbFree_app (Now w)) by exact Hnow.
  rewrite (Sprintf_verbFree_app p) by exact Hp.
  change (Sprintf ("%s" ++ m ++ "%s" ++ t ++ nl) [x; y])
    with (x ++ Sprintf (m ++ "%s" ++ t ++ nl) [y]).
  rewrite (Sprintf_verbFree_app m) by exact Hm.
  change (Sprintf ("%s" ++ t ++ nl) [y]) with (y ++ Sprintf (t ++ nl) []).
  rewrite (Sprintf_verbFree (t ++ nl)); [reflexivity|].
  now rewrite verbFree_app, Ht.
Qed.

Lemma log_two_operands_witness :
  stderr (exec (serve Demo.world Demo.everything (Demo.get "/vault/x"))
               start)
  = ["2020.01.02 03:04:05 " ++ "fail to stat file " ++ "/srv/site/vault/x"
     ++ ": " ++ "permission denied" ++ "." ++ nl].
Proof.
  pose proof (log_two_operands Demo.world "fail to stat file " ": " "."
                "/srv/site/vault/x" "permission denied"
                eq_refl eq_refl eq_refl eq_refl eq_refl) as H.
  change (stderr _)
    with [logLine Demo.world
            ("fail to stat file " ++ "%s" ++ ": " ++ "%s" ++ ".")
            ["/srv/site/vault/x"; "permission denied"]].
  rewrite H. reflexivity.
Defined.

(** X21: the [status] field of the wrapper holds the last code passed to
    [WriteHeader], while the connection keeps the first status line: a
    second [WriteHeader], or one after a [Write], makes the two differ. *)
Theorem wrapper_status_is_last_code (w : World) (s : HState)
        (c1 c2 : Z) (b : string) :
  statusLine s = None ->
  (let out := exec (bind (WriteHeader c1) (fun _ => WriteHeader c2)) s in
   statusLine out = Some c1 /\ status (rw out) = c2) /\
  (let out := exec (bind (Write w b) (fun _ => WriteHeader c2)) s in
   statusLine out = Some StatusOK /\ status (rw out) = c2 /\
   sent out = sent s ++ b).
Proof.
  destruct s as [[[h co bo] st] o e].
  unfold statusLine, sent. cbn [rw inner code body]. intros ->.
  split; repeat split.
Qed.

Lemma wrapper_status_is_last_code_witness :
  let out := exec (bind (WriteHeader 404) (fun _ => WriteHeader 200))
                  start in
  statusLine out = Some 404 /\ status (rw out) = 200.
Proof.
  exact (proj1 (wrapper_status_is_last_code Demo.world start 404 200
                  EmptyString eq_refl)).
Defined.

Lemma Split_trailing (x : string) (k : nat) :
  Split (x ++ slashes k) Separator
  = (Split x Separator ++ repeat EmptyString k)%list.
Proof.
  destruct k as [|k].
  - cbn [slashes repeat]. now rewrite append_empty_r, app_nil_r.
  - cbn [slashes]. now rewrite Split_app, Split_slashes.
Qed.

Lemma Clean_trailing (x : string) (k : nat) :
  x <> EmptyString ->
  Filepath.Clean (x ++ slashes k) = Filepath.Clean x.
Proof.
  destruct x as [|c x]; [congruence|]. intros _.
  unfold Filepath.Clean. cbn [append].
  change (String c (x ++ slashes k)) with (String c x ++ slashes k).
  now rewrite Split_trailing, fold_left_app, scan_empty.
Qed.

(** X22: separators at the end of the request path do not change the
    file-system path it resolves to, whatever the (non-empty) root: a
    file asked for with a trailing separator is still that file. *)
Theorem resolved_ignores_trailing_separators (g : Globals)
        (r r' : Request) (k : nat) :
  root g <> EmptyString ->
  URLPath r' = URLPath r ++ slashes k ->
  resolved g r' = resolved g r.
Proof.
  intros Hroot Hpath. unfold resolved. rewrite Hpath.
  destruct (root g) as [|c rt] eqn:E; [congruence|].
  cbn [Filepath.Join Strings.Join].
  replace (String c rt ++ "/" ++ URLPath r ++ slashes k)
    with ((String c rt ++ "/" ++ URLPath r) ++ slashes k)
    by (now rewrite !append_assoc).
  apply Clean_trailing. discriminate.
Qed.

Lemma resolved_ignores_trailing_separators_witness :
  resolved Demo.everything (Demo.get "/index.html//")
  = resolved Demo.everything (Demo.get "/index.html")
  /\ sent (exec (serve Demo.world Demo.everything
                   (Demo.get "/index.html//")) start)
     = "<html>hi</html>".
Proof.
  split; [|reflexivity].
  apply (resolved_ignores_trailing_separators Demo.everything
           (Demo.get "/index.html") (Demo.get "/index.html//") 2).
  - discriminate.
  - reflexivity.
Defined.

End Properties.
